(* ===== verification/_CoqProject ===== *)
-Q . S2P
Prelude.v
PyFloat.v
Random.v
CellActivity.v
Cell.v
Population.v
Collisions.v
Loop.v
Invariants.v
