(* ===== verification/Prelude.v ===== *)
(** * Under_micro: a verification development of [src/under_micro.py]

    ** The program

    [src/under_micro.py] is a single pygame script (264 lines).  Its parts:
    - [CellActivity] (lines 7-33): the per-cell resource pool, with the
      fields [nutrients], [secondary_metabolites] and
      [iterations_without_nutrients], and one operation [update_activity]
      that consumes 0.1 nutrients, credits the carrier cell's [energy],
      produces 0.05 metabolites, or counts a starving tick and kills the
      carrier after 5 of them.
    - [Cell] (lines 36-117): a sprite with a [rect], an animation cursor,
      an age ([iterations_since_birth]), a random lifespan
      ([max_iterations], drawn by [random.randint(1, 72)]) and a
      [CellActivity].  [update_activity] ages the cell, divides it every
      20 ticks and kills it at its lifespan; [divide] appends a child at
      the parent's position to the global list [cells] when
      [check_available_space] finds no other cell within
      [combined_radius + 50].
    - The main loop (lines 119-265): event handling (quit, the music
      button, click-to-spawn), pairwise collision resolution, culling of
      dead cells, the per-cell update (animation frame, activity, random
      jitter, clamping to the window), drawing, and the three counters.

    All arithmetic on [nutrients], [energy], metabolites, radii and
    distances is Python [float], i.e. IEEE-754 binary64; it is modelled
    bit-exactly with the Standard Library's axiom-free [SpecFloat]
    (prec 53, emax 1024), so every definition computes by [vm_compute].
    Python [int]s (positions, ages, counters) are [Z].  Randomness is an
    explicit seeded source passed through the state (an interface with
    a range law), as the design notes of the spec ask.

    ** Files, modules and how they correspond to the code

    - [Prelude] (this file): the scope [micro_scope], the tactics
      [inv_clear] and [bools], the hint databases [micro], [micro_bool]
      and [micro_len], and generic lemmas on lists ([count_if],
      [sum_with], inserts).
    - [PyFloat] ([Module PyFloat]): Python float semantics over
      [SpecFloat]: literals ([lit n d] is [n / d] rounded once), [+ - * /
      sqrt], [int()] ([to_int], [None] on NaN or inf, where Python
      raises), the exact int/float comparisons Python performs
      ([int_lt], [ne_int]) and [x % 1 == 0] ([mod1_is_zero]).
    - [Random]: the classes [RandomSource] ([randint], [uniform]) and
      [RandomSourceLaws] (the range of [randint]), and a linear
      congruential instance [Lcg] used by the witnesses.
    - [CellActivity] ([Module CellActivity]): the pool record [activity],
      [init] and [update_activity] (lines 13-33) written against the class
      [Carrier] of what the method reads and writes of its [cell]
      argument: [energy], [die] and [cell.cell_activity], which is the pool
      itself ([self]), so the model re-reads the pool through the carrier
      after each write, as the aliased Python object does.
    - [Cell] ([Module Cell]): the record [cell] of the instance attributes,
      the constructor [init] (its only random draw is the lifespan),
      [update_image], [update_animation], [die], and the [Carrier]
      instance.
    - [Population] ([Module Population]): the methods of [Cell] that read
      the global list [cells], taking the list and the index of [self]:
      [check_available_space] ([check_from], [too_close]), [divide],
      [update_activity] (lines 73-117), and [cull] (line 211).
    - [Collisions] ([Module Collisions]): the double loop of lines
      186-208: [displacement], [resolve_pair], [inner_loop],
      [outer_loop], [resolve_collisions]; [None] when [int()] raises.
    - [Loop] ([Module Loop]): the module-level state as the record
      [state] (the list [cells], the generator, the three counters, the
      music player), [init_state] (lines 128-164), [handle_event] and
      [handle_events] (lines 168-182), [cell_step] and [update_loop] (the
      body and the loop of lines 213-227), [loop_iteration] (one pass
      of [while running]), the step relation [step] and [reachable].
    - [Invariants] ([Module Invariants]): the cell invariant [cell_inv]
      and the state invariant [state_inv], proved for [init_state] and
      kept by [loop_iteration], then over [reachable] by rule induction.

    ** The theorems

    - Invariants (C1-C3): every reachable cell is within its lifespan,
      dead exactly at its lifespan, of the sprite size, with the pool of
      a cell fed on each tick of its life; no cell ever starves; every
      cell is in the window after each iteration.
    - Termination (C4): the per-cell loop ends although it appends to the
      list it walks.
    - Functional behaviour of each operation on every branch (C5-C10,
      C15-C18): [Cell.update_activity], [divide], the space check, the
      pool's fed and starving ticks, the lifespan of a fresh pool in
      binary64, the animation, the click and music handlers.
    - Collisions (C11, C12, C14): the pass only moves cells and keeps the
      sum of the coordinates; the body leaves a pair at the same position
      in place; a pair is pushed apart by the whole overlap on each side.
    - Counters (C13): what one iteration adds to [newborn_counter]: the
      cells created during it (clicks and divisions) and the cells still
      of age [0], which only the initial population has.

    ** Bounds and fuel

    [update_loop] takes fuel [update_fuel cells = 2 * len(cells) + 1]:
    each visit moves the index forward and appends at most one child,
    and a child (age 0) is not due to divide in its birth frame, so the
    measure [potential] (2 per cell still to visit that may divide, 1 per
    child) decreases at every visit; [update_loop_terminates] proves the
    fuel always suffices, so [update_all]'s out-of-fuel branch is never
    taken.  Float facts over all ages use the lifespan bound [72]: the
    tables [pool_table] and [starve_table] evaluate the pool for ages
    [0..71] and [0..72] by [vm_compute]; the collision theorem C14 is checked for
    every distance [1..39] the same way.  Ints are unbounded in Python
    and [Z] here.  pygame's [Rect] stores C ints; C3 keeps every
    coordinate inside the window at the end of each iteration, so their
    overflow is not modelled.

    ** What modelling showed

    The metabolite test of line 22 is always true ([cell.cell_activity]
    is [self]); starvation is unreachable since lifespans are at most
    72 ticks and a pool lasts 1000; the loop calls [update_image], so
    [animation_speed] has no effect; a colliding pair is pushed by the
    whole overlap on each side, and a pair at the same position (a child
    on its parent) is left in place; the first iteration counts the whole
    initial population as newborn.

    ** Not modelled, and the plan

    Rendering ([blit], [draw.rect], fonts, [display.flip]), asset and
    audio decoding, the window and the 5 Hz pacing of [clock.tick]:
    they have no state the simulation reads.  The audio device is kept
    as the loaded track and whether it plays.  Python's [random] is the
    [RandomSource] interface.  Later work: a general float lemma
    library to state collision displacement for all inputs (now checked
    on tables), a refinement of the float space test by an exact
    integer test, and the values shown by the statistics overlay. *)

From stdpp Require Export base list.
From Stdlib Require Export ZArith Lia.

Declare Scope micro_scope.
Delimit Scope micro_scope with micro.
Open Scope Z_scope.

(** Python's [len] on a list, as a Python int. *)
Definition py_len {A} (l : list A) : Z := Z.of_nat (length l).
Notation "'len' l" := (py_len l) (at level 10, l at level 9) : micro_scope.

(** [sum(p(x) for x in l)] where [p] returns a bool (counted as 0/1). *)
Fixpoint count_if {A} (p : A -> bool) (l : list A) : nat :=
  match l with
  | [] => 0%nat
  | x :: l' => ((if p x then 1 else 0) + count_if p l')%nat
  end.

(** [sum(f(x) for x in l)] on Python ints. *)
Fixpoint sum_with {A} (f : A -> Z) (l : list A) : Z :=
  match l with
  | [] => 0
  | x :: l' => f x + sum_with f l'
  end.

Create HintDb micro.
Create Rewrite HintDb micro_bool.

(** Boolean tests of the code turned into propositions. *)
#[export] Hint Rewrite Z.leb_le Z.ltb_lt Z.eqb_eq Z.leb_gt Z.ltb_ge Z.eqb_neq
  andb_true_iff andb_false_iff orb_true_iff orb_false_iff negb_true_iff
  negb_false_iff Nat.ltb_lt Nat.ltb_ge Nat.eqb_eq : micro_bool.

Ltac inv_clear H := inversion H; subst; clear H.

(** Turn every boolean test in hypotheses and goal into its proposition. *)
Ltac bools := repeat (autorewrite with micro_bool in *; simpl in *).

Section Lists.
Context {A : Type}.
Implicit Types (l : list A) (p : A -> bool) (f : A -> Z).

Lemma count_if_app p l1 l2 :
  count_if p (l1 ++ l2) = (count_if p l1 + count_if p l2)%nat.
Proof. induction l1 as [|x l1 IH]; simpl; [done|]. rewrite IH. lia. Qed.

Lemma count_if_le_length p l : (count_if p l <= length l)%nat.
Proof. induction l as [|x l IH]; simpl; [lia|]. destruct (p x); lia. Qed.

Lemma count_if_filter_length p l :
  length (filter (fun x => p x = false) l) = (length l - count_if p l)%nat.
Proof.
  induction l as [|x l IH]; simpl; [done|].
  rewrite filter_cons. pose proof (count_if_le_length p l).
  case_decide as Hp; simpl; rewrite ?Hp; simpl.
  - rewrite IH. lia.
  - destruct (p x); [|done]. rewrite IH. lia.
Qed.

Lemma count_if_zero p l :
  count_if p l = 0%nat <-> Forall (fun x => p x = false) l.
Proof.
  induction l as [|x l IH]; simpl.
  - split; auto.
  - rewrite Forall_cons, <- IH. destruct (p x); simpl; split; intros H.
    + lia.
    + destruct H; done.
    + split; auto.
    + tauto.
Qed.

Lemma count_if_filter_none p l :
  count_if p (filter (fun x => p x = false) l) = 0%nat.
Proof.
  induction l as [|x l IH]; simpl; [done|].
  rewrite filter_cons. case_decide as Hp; simpl; rewrite ?Hp; done.
Qed.

Lemma count_if_take_drop p l i :
  (count_if p (take i l) + count_if p (drop i l))%nat = count_if p l.
Proof. rewrite <- count_if_app, take_drop. done. Qed.

Lemma count_if_all p l : Forall (fun x => p x = true) l -> count_if p l = length l.
Proof. induction 1 as [|x l Hx _ IH]; simpl; [done|]. rewrite Hx, IH. done. Qed.

(** What a filter keeps, counted. *)
Lemma length_filter_count p l :
  length (filter (fun x => p x = false) l) = count_if (fun x => negb (p x)) l.
Proof.
  induction l as [|x l IH]; simpl; [done|]. rewrite filter_cons.
  case_decide as Hp; simpl; rewrite IH; [rewrite Hp; done|].
  destruct (p x); [done|contradiction].
Qed.

Lemma count_if_filter p (q : A -> bool) l :
  Forall (fun x => p x = true -> q x = false) l ->
  count_if p (filter (fun x => q x = false) l) = count_if p l.
Proof.
  induction 1 as [|x l Hx _ IH]; simpl; [done|]. rewrite filter_cons.
  case_decide as Hq; simpl; rewrite IH; [done|].
  destruct (p x) eqn:Hp; [|done]. exfalso. apply Hq, Hx. done.
Qed.

(** Related lists have as many elements passing related tests. *)
Lemma count_if_Forall2 {B} (R : A -> B -> Prop) p (q : B -> bool) l (k : list B) :
  Forall2 R l k -> (forall x y, R x y -> p x = q y) -> count_if p l = count_if q k.
Proof.
  intros HF Hpq. induction HF as [|x y l k Hxy _ IH]; simpl; [done|].
  rewrite (Hpq x y Hxy), IH. done.
Qed.

Lemma sum_with_app f l1 l2 : sum_with f (l1 ++ l2) = sum_with f l1 + sum_with f l2.
Proof. induction l1 as [|x l1 IH]; simpl; lia. Qed.

(** Overwriting one element changes a sum by the difference. *)
Lemma sum_with_insert f l i x y :
  l !! i = Some y -> sum_with f (<[i:=x]> l) = sum_with f l - f y + f x.
Proof.
  revert i. induction l as [|z l IH]; intros [|i] H; simpl in *; try done.
  - simplify_eq. lia.
  - rewrite (IH i H). lia.
Qed.

Lemma lookup_insert_length l i x j y :
  <[i:=x]> l !! j = Some y -> (j < length l)%nat.
Proof. intros H. apply lookup_lt_Some in H. by rewrite length_insert in H. Qed.
End Lists.

#[export] Hint Resolve count_if_le_length : micro.
Create Rewrite HintDb micro_len.
#[export] Hint Rewrite @count_if_app @sum_with_app @length_insert @length_app : micro_len.
