(* ===== verification/PyFloat.v ===== *)
(** Python [float] semantics, over the Standard Library's [SpecFloat].

    CPython's [float] is an IEEE-754 binary64 double: [SpecFloat] with
    [prec = 53] and [emax = 1024] describes its values and its correctly
    rounded [+ - * / sqrt] without any axiom.  On top of it this file
    writes out the Python operations the program applies to mixed int and
    float operands:
    - [float(z)] for an int ([of_int]; correctly rounded, ties to even);
    - the literals [0.1], [0.05] as the correctly rounded quotients;
    - int-float comparisons, which CPython performs exactly ([int_cmp]),
      not by converting the int;
    - [int(x)], truncation toward zero, raising [ValueError] on NaN and
      [OverflowError] on infinities ([to_int] returns [None] then);
    - [x % 1 == 0], which for a finite [x] holds iff [x] is an integer
      ([mod1_is_zero]): [x % 1] is [fmod(x, 1)] corrected by [+1] when the
      signs differ, and that correction never yields [0]. *)

From S2P Require Import Prelude.
From Stdlib Require Export SpecFloat.

Module PyFloat.

Abbreviation float := spec_float.

Definition prec : Z := 53.
Definition emax : Z := 1024.

Definition add : float -> float -> float := SFadd prec emax.
Definition sub : float -> float -> float := SFsub prec emax.
Definition mul : float -> float -> float := SFmul prec emax.
Definition div : float -> float -> float := SFdiv prec emax.
Definition sqrt : float -> float := SFsqrt prec emax.

(** [float(z)]: also how CPython turns an int operand of a mixed
    arithmetic operation into a float. *)
Definition of_int (z : Z) : float := binary_normalize prec emax z 0 false.

(** A decimal literal [n / d], rounded once, as the parser rounds it. *)
Definition lit (n d : Z) : float := div (of_int n) (of_int d).

(** [x ** 2] on a float: CPython calls [pow(x, 2.0)], exact-rounded [x*x]. *)
Definition sq (x : float) : float := mul x x.

(** float-float comparisons: IEEE, false on NaN. *)
Definition ge (x y : float) : bool := SFleb y x.
Definition lt (x y : float) : bool := SFltb x y.

Definition is_finite (x : float) : bool :=
  match x with
  | S754_zero _ | S754_finite _ _ _ => true
  | _ => false
  end.

(** The exact value [±m·2^e] compared with an int: CPython's
    [float_richcompare] with an int operand. [None] on NaN. *)
Definition int_cmp (z : Z) (x : float) : option comparison :=
  match x with
  | S754_nan => None
  | S754_infinity s => Some (if s then Gt else Lt)
  | S754_zero _ => Some (Z.compare z 0)
  | S754_finite s m e =>
      if 0 <=? e then Some (Z.compare z (cond_Zopp s (Z.pos m * 2 ^ e)))
      else Some (Z.compare (z * 2 ^ (- e)) (cond_Zopp s (Z.pos m)))
  end.

(** [z < x] for an int [z] and a float [x]. *)
Definition int_lt (z : Z) (x : float) : bool :=
  match int_cmp z x with Some Lt => true | _ => false end.

(** [x != z] for a float [x] and an int [z] (true on NaN). *)
Definition ne_int (x : float) (z : Z) : bool :=
  match int_cmp z x with Some Eq => false | _ => true end.

(** [int(x)]: truncation toward zero; [None] where CPython raises. *)
Definition to_int (x : float) : option Z :=
  match x with
  | S754_zero _ => Some 0
  | S754_finite s m e =>
      Some (cond_Zopp s (if 0 <=? e then Z.pos m * 2 ^ e else Z.pos m / 2 ^ (- e)))
  | _ => None
  end.

(** [x % 1 == 0]. *)
Definition mod1_is_zero (x : float) : bool :=
  match x with
  | S754_zero _ => true
  | S754_finite _ m e => (0 <=? e) || (Z.pos m mod 2 ^ (- e) =? 0)
  | _ => false
  end.

End PyFloat.

Declare Scope pyf_scope.
Delimit Scope pyf_scope with pyf.
Notation "x .+ y" := (PyFloat.add x y) (at level 50, left associativity) : pyf_scope.
Notation "x .- y" := (PyFloat.sub x y) (at level 50, left associativity) : pyf_scope.
Notation "x .* y" := (PyFloat.mul x y) (at level 40, left associativity) : pyf_scope.
Notation "x ./ y" := (PyFloat.div x y) (at level 40, left associativity) : pyf_scope.
Notation "x .>= y" := (PyFloat.ge x y) (at level 70, no associativity) : pyf_scope.
Notation "x .< y" := (PyFloat.lt x y) (at level 70, no associativity) : pyf_scope.

Module PyFloatFacts.
Import PyFloat.

Lemma of_int_0 : of_int 0 = S754_zero false.
Proof. reflexivity. Qed.

Lemma sqrt_zero s : sqrt (S754_zero s) = S754_zero s.
Proof. reflexivity. Qed.

Lemma to_int_zero s : to_int (S754_zero s) = Some 0.
Proof. reflexivity. Qed.

Lemma ne_int_zero_0 s : ne_int (S754_zero s) 0 = false.
Proof. reflexivity. Qed.

(** [x - x] is [+0.0] for every finite [x]: the aliased read in
    [CellActivity.update_activity] relies on it. *)
Lemma sub_self x : is_finite x = true -> sub x x = S754_zero false.
Proof.
  destruct x as [s|s| |s m e]; simpl; try discriminate; intros _.
  - destruct s; reflexivity.
  - unfold sub, SFsub. rewrite Z.min_id.
    unfold shl_align. rewrite Z.sub_diag. simpl. destruct s; simpl; rewrite ?Z.pos_sub_diag; reflexivity.
Qed.

Lemma mod1_is_zero_zero s : mod1_is_zero (S754_zero s) = true.
Proof. reflexivity. Qed.

End PyFloatFacts.
