(* ===== verification/Random.v ===== *)
(** The random source the program draws from.

    The script calls [random.randint(a, b)] (lifespans, jitter) and
    [random.uniform(a, b)] (animation speeds, initial positions) on the
    global Mersenne Twister.  The development threads an explicit
    generator state [G] instead, through the class [RandomSource]; the
    only property the theorems use is the range law of [randint]
    ([RandomSourceLaws]), so they hold for every generator, CPython's
    included.  [Lcg] is a concrete instance, used to run the model. *)

From S2P Require Import Prelude PyFloat.

Class RandomSource (G : Type) := {
  (** [random.randint(lo, hi)] *)
  randint : Z -> Z -> G -> Z * G;
  (** [random.uniform(lo, hi)] *)
  uniform : PyFloat.float -> PyFloat.float -> G -> PyFloat.float * G
}.

Class RandomSourceLaws (G : Type) `{RandomSource G} := {
  randint_range : forall lo hi g, lo <= hi -> lo <= fst (randint lo hi g) <= hi
}.

(** A linear congruential generator on 31 bits. *)
Module Lcg.
Record t := mk { seed : Z }.

Definition next (g : t) : t := mk ((1103515245 * seed g + 12345) mod 2 ^ 31).

(** [random.uniform] is [a + (b - a) * random()] in CPython. *)
#[export] Instance lcg_source : RandomSource t := {
  randint lo hi g := let g' := next g in (lo + seed g' mod (hi - lo + 1), g');
  uniform a b g :=
    let g' := next g in
    (PyFloat.add a (PyFloat.mul (PyFloat.sub b a)
       (PyFloat.div (PyFloat.of_int (seed g')) (PyFloat.of_int (2 ^ 31)))), g')
}.

#[export] Instance lcg_laws : RandomSourceLaws t.
Proof.
  constructor. intros lo hi g Hle.
  change (lo <= lo + seed (next g) mod (hi - lo + 1) <= hi).
  assert (0 < hi - lo + 1) as Hpos by lia.
  pose proof (Z.mod_pos_bound (seed (next g)) (hi - lo + 1) Hpos). lia.
Qed.
End Lcg.
