(* ===== verification/CellActivity.v ===== *)
(** The resource pool: class [CellActivity] of [src/under_micro.py]
    (lines 7-33).

    [CellActivity.update_activity(self, cell)] reads and writes fields of
    its argument [cell] ([energy], [die()]) and reads
    [cell.cell_activity.nutrients], which is [self] again: its only call
    site is [Cell.update_activity] (line 74), which passes the cell that
    owns [self].  The method is therefore modelled as a function on the
    carrier [C] of the pool, through the interface [Carrier] (the
    accessors the method uses), and [self] is re-read through
    [carrier_activity] at every access, which is the aliasing of the
    code.  [CarrierLaws] are the get/set laws a carrier must satisfy;
    [Cell] discharges them. *)

From S2P Require Import Prelude PyFloat.
Import PyFloat.
Local Open Scope pyf_scope.

Module CellActivity.

Record activity := mk_activity {
  nutrients : float;
  secondary_metabolites : float;
  iterations_without_nutrients : Z
}.

Definition set_nutrients (n : float) (a : activity) : activity :=
  mk_activity n (secondary_metabolites a) (iterations_without_nutrients a).
Definition set_secondary_metabolites (m : float) (a : activity) : activity :=
  mk_activity (nutrients a) m (iterations_without_nutrients a).
Definition set_iterations_without_nutrients (k : Z) (a : activity) : activity :=
  mk_activity (nutrients a) (secondary_metabolites a) k.

(** [__init__(self, initial_nutrients=100)]; the int [100] and [0] of
    the code behave as the floats [100.0] and [0.0] in every operation
    applied to them ([>=] against a float, [-= 0.1], [+= 0.05]). *)
Definition init (initial_nutrients : Z) : activity :=
  mk_activity (of_int initial_nutrients) (of_int 0) 0.

Definition default_nutrients : Z := 100.

(** [nutrient_consumption = 0.1], the metabolite step [0.05], and the
    starvation limit [5]. *)
Definition nutrient_consumption : float := lit 1 10.
Definition metabolite_step : float := lit 5 100.
Definition starvation_limit : Z := 5.

(** What [update_activity] needs of the cell it is called with. *)
Class Carrier (C : Type) := {
  carrier_activity : C -> activity;          (** [cell.cell_activity] *)
  set_carrier_activity : activity -> C -> C;
  energy : C -> float;                       (** [cell.energy] *)
  set_energy : float -> C -> C;
  is_dead : C -> bool;                       (** [cell.dead] *)
  die : C -> C                               (** [cell.die()] *)
}.

Class CarrierLaws (C : Type) `{Carrier C} := {
  activity_set_activity a c : carrier_activity (set_carrier_activity a c) = a;
  activity_set_energy e c : carrier_activity (set_energy e c) = carrier_activity c;
  activity_die c : carrier_activity (die c) = carrier_activity c;
  energy_set_energy e c : energy (set_energy e c) = e;
  energy_set_activity a c : energy (set_carrier_activity a c) = energy c;
  energy_die c : energy (die c) = energy c;
  dead_set_activity a c : is_dead (set_carrier_activity a c) = is_dead c;
  dead_set_energy e c : is_dead (set_energy e c) = is_dead c;
  dead_die c : is_dead (die c) = true
}.

Section Update.
Context {C : Type} `{Carrier C}.

(** [CellActivity.update_activity(self, cell)], with [self] the pool
    of [cell]. *)
Definition update_activity (cell : C) : C :=
  let self := carrier_activity cell in
  if nutrients self .>= nutrient_consumption then
    (* self.nutrients -= nutrient_consumption *)
    let cell := set_carrier_activity
                  (set_nutrients (nutrients self .- nutrient_consumption) self) cell in
    (* cell.energy += nutrient_consumption *)
    let cell := set_energy (energy cell .+ nutrient_consumption) cell in
    (* if (cell.cell_activity.nutrients - self.nutrients) % 1 == 0 *)
    let self := carrier_activity cell in
    let cell :=
      if mod1_is_zero (nutrients (carrier_activity cell) .- nutrients self) then
        set_carrier_activity
          (set_secondary_metabolites (secondary_metabolites self .+ metabolite_step) self)
          cell
      else cell in
    (* self.iterations_without_nutrients = 0 *)
    let self := carrier_activity cell in
    set_carrier_activity (set_iterations_without_nutrients 0 self) cell
  else
    (* self.iterations_without_nutrients += 1 *)
    let cell := set_carrier_activity
                  (set_iterations_without_nutrients
                     (iterations_without_nutrients self + 1) self) cell in
    if starvation_limit <=? iterations_without_nutrients (carrier_activity cell)
    then die cell else cell.
End Update.

(** ** The pool alone

    [update_activity] touches the pool only through [carrier_activity],
    so its effect on the pool and on [dead] is a function of the pool:
    [activity_step] and [kills] (used to run the pool on its own). *)

Definition activity_step (a : activity) : activity :=
  if nutrients a .>= nutrient_consumption then
    let a := set_nutrients (nutrients a .- nutrient_consumption) a in
    let a := if mod1_is_zero (nutrients a .- nutrients a)
             then set_secondary_metabolites (secondary_metabolites a .+ metabolite_step) a
             else a in
    set_iterations_without_nutrients 0 a
  else set_iterations_without_nutrients (iterations_without_nutrients a + 1) a.

Definition kills (a : activity) : bool :=
  negb (nutrients a .>= nutrient_consumption) &&
  (starvation_limit <=? iterations_without_nutrients a + 1).

(** Whether one of the next [k] ticks from pool [a] kills the carrier. *)
Fixpoint dies_within (k : nat) (a : activity) : bool :=
  match k with
  | O => false
  | S k => kills a || dies_within k (activity_step a)
  end.

(** ** Lemmas *)

(** Rewrite every carrier accessor applied to a carrier update. *)
Ltac carrier_simpl :=
  repeat progress rewrite ?activity_set_activity, ?activity_set_energy, ?activity_die,
    ?energy_set_energy, ?energy_set_activity, ?energy_die,
    ?dead_set_activity, ?dead_set_energy, ?dead_die.

Section Laws.
Context {C : Type} `{CarrierLaws C}.


(** The pool after a consuming tick, as the code would compute it if
    the metabolite test held. *)
Definition fed (a : activity) : activity :=
  mk_activity (nutrients a .- nutrient_consumption)
    (secondary_metabolites a .+ metabolite_step) 0.

(** The pool after a starving tick. *)
Definition starved (a : activity) : activity :=
  set_iterations_without_nutrients (iterations_without_nutrients a + 1) a.

(** C8: a consuming tick.  When the pool holds at least [0.1] and what
    is left after the decrement is finite, the pool loses [0.1], gains
    [0.05] secondary metabolites and its starving count is reset, the
    carrier's [energy] grows by [0.1], and nothing dies.  The
    metabolite test [(cell.cell_activity.nutrients - self.nutrients) % 1
    == 0] reads the same object twice ([cell.cell_activity] is [self]),
    computes [x - x = 0.0], and never fails. *)
Theorem update_activity_feeds (c : C) :
  (nutrients (carrier_activity c) .>= nutrient_consumption) = true ->
  is_finite (nutrients (carrier_activity c) .- nutrient_consumption) = true ->
  carrier_activity (update_activity c) = fed (carrier_activity c) /\
  energy (update_activity c) = energy c .+ nutrient_consumption /\
  is_dead (update_activity c) = is_dead c.
Proof.
  intros Hge Hfin. unfold update_activity. rewrite Hge.
  carrier_simpl. cbn [nutrients set_nutrients].
  rewrite (PyFloatFacts.sub_self _ Hfin). cbn [mod1_is_zero].
  carrier_simpl. repeat split.
Qed.

Lemma update_activity_starve_shape (c : C) :
  (nutrients (carrier_activity c) .>= nutrient_consumption) = false ->
  carrier_activity (update_activity c) = starved (carrier_activity c) /\
  energy (update_activity c) = energy c /\
  is_dead (update_activity c) =
    is_dead c || (starvation_limit <=? iterations_without_nutrients (carrier_activity c) + 1).
Proof.
  intros Hge. unfold update_activity. rewrite Hge.
  carrier_simpl. simpl.
  destruct (starvation_limit <=? _); carrier_simpl;
    rewrite ?orb_true_r, ?orb_false_r; repeat split.
Qed.

(** [energy] grows by [0.1] exactly on a consuming tick. *)
Lemma update_activity_energy (c : C) :
  energy (update_activity c) =
    if nutrients (carrier_activity c) .>= nutrient_consumption
    then energy c .+ nutrient_consumption else energy c.
Proof.
  unfold update_activity.
  destruct (nutrients (carrier_activity c) .>= nutrient_consumption); carrier_simpl.
  - destruct (mod1_is_zero _); carrier_simpl; done.
  - destruct (starvation_limit <=? _); carrier_simpl; done.
Qed.

Lemma update_activity_proj (c : C) :
  carrier_activity (update_activity c) = activity_step (carrier_activity c) /\
  is_dead (update_activity c) = is_dead c || kills (carrier_activity c).
Proof.
  unfold update_activity, activity_step, kills.
  destruct (nutrients (carrier_activity c) .>= nutrient_consumption); cbn [negb andb].
  - carrier_simpl. cbn [nutrients set_nutrients].
    destruct (mod1_is_zero _); carrier_simpl; rewrite ?orb_false_r; done.
  - carrier_simpl. cbn [iterations_without_nutrients set_iterations_without_nutrients].
    destruct (starvation_limit <=? _); carrier_simpl; rewrite ?orb_true_r, ?orb_false_r; done.
Qed.

Lemma dies_within_S (k : nat) (a : activity) :
  dies_within (S k) a = dies_within k a || kills (Nat.iter k activity_step a).
Proof.
  revert a. induction k as [|k IH]; intros a.
  - cbn [dies_within Nat.iter]. rewrite !orb_false_r. reflexivity.
  - change (kills a || dies_within (S k) (activity_step a) =
            (kills a || dies_within k (activity_step a)) ||
            kills (Nat.iter (S k) activity_step a)).
    rewrite IH, Nat.iter_succ_r, orb_assoc. reflexivity.
Qed.

Lemma iter_update_activity_proj (c : C) (k : nat) :
  carrier_activity (Nat.iter k update_activity c) = Nat.iter k activity_step (carrier_activity c) /\
  is_dead (Nat.iter k update_activity c) = is_dead c || dies_within k (carrier_activity c).
Proof.
  induction k as [|k [IHa IHd]]; simpl Nat.iter.
  - rewrite orb_false_r. done.
  - destruct (update_activity_proj (Nat.iter k update_activity c)) as [Ha Hd].
    rewrite Ha, Hd, IHa, IHd, dies_within_S, orb_assoc. done.
Qed.

(** C9: starvation.  While [nutrients < 0.1] a tick leaves the
    nutrients alone and counts one more starving tick, and the carrier
    is dead after [k] ticks exactly when it was dead before or [k > 0]
    and the count has reached [5]: a pool starting at count [0] dies
    at the fifth starving tick and not before. *)
Theorem starvation_kills_after_five (c : C) (k : nat) :
  (nutrients (carrier_activity c) .>= nutrient_consumption) = false ->
  nutrients (carrier_activity (Nat.iter k update_activity c)) = nutrients (carrier_activity c) /\
  iterations_without_nutrients (carrier_activity (Nat.iter k update_activity c)) =
    iterations_without_nutrients (carrier_activity c) + Z.of_nat k /\
  is_dead (Nat.iter k update_activity c) =
    is_dead c || (negb (k =? 0)%nat &&
                  (starvation_limit <=? iterations_without_nutrients (carrier_activity c) + Z.of_nat k)).
Proof.
  intros Hstarve. induction k as [|k (IHn & IHi & IHd)]; simpl Nat.iter.
  - rewrite orb_false_r. repeat split. lia.
  - rewrite <- IHn in Hstarve.
    destruct (update_activity_starve_shape _ Hstarve) as (Ha & _ & Hd).
    rewrite Ha, Hd, IHd, IHi. cbn. rewrite IHn. repeat split; [lia|].
    unfold starvation_limit.
    remember (iterations_without_nutrients (carrier_activity c)) as i.
    rewrite Nat2Z.inj_succ, <- Z.add_1_r, Z.add_assoc.
    destruct (is_dead c); [done|]. cbn [orb negb andb Nat.eqb].
    destruct (5 <=? i + Z.of_nat k + 1) eqn:E2; [by destruct (negb _ && _)|].
    rewrite orb_false_r. destruct (k =? 0)%nat; cbn; [done|].
    destruct (5 <=? i + Z.of_nat k) eqn:E1; [|reflexivity].
    apply Z.leb_le in E1. apply Z.leb_gt in E2. lia.
Qed.

(** C10: the spec's scenario of a pool of 100 stepped with nothing
    else going on.  The 0.1 decrements are rounded, so after 1000
    consuming ticks the pool holds [6953998728822784 * 2^-92]
    (about [1.4e-12]), not [0]; no starving tick has been counted yet;
    the ticks 1001 to 1005 starve, and the carrier is alive after
    tick 1004 and dead after tick 1005. *)
Theorem fresh_pool_lasts_1000_ticks (c : C) :
  carrier_activity c = init default_nutrients -> is_dead c = false ->
  nutrients (carrier_activity (Nat.iter 1000 update_activity c)) =
    S754_finite false 6953998728822784 (-92) /\
  iterations_without_nutrients (carrier_activity (Nat.iter 1000 update_activity c)) = 0 /\
  is_dead (Nat.iter 1004 update_activity c) = false /\
  is_dead (Nat.iter 1005 update_activity c) = true.
Proof.
  intros Ha Hd.
  destruct (iter_update_activity_proj c 1000) as [A _].
  destruct (iter_update_activity_proj c 1004) as [_ D4].
  destruct (iter_update_activity_proj c 1005) as [_ D5].
  rewrite A, D4, D5, Ha, Hd. vm_compute. repeat split.
Qed.
End Laws.

End CellActivity.
