(* ===== verification/Cell.v ===== *)
(** The cell sprite: class [Cell] of [src/under_micro.py] (lines 36-100),
    without the two methods that read the global list [cells]
    ([divide], [check_available_space]) and [update_activity], which
    calls [divide]; those are in [Population].

    A [cell] has the instance attributes of [Cell.__init__].  [screen] and
    [screen_rect] are the display surface and are not modelled; [image] is
    the index of the current frame in the class attribute [cell_animation]
    (6 frames loaded from [media/cell_1/]).  The rect's size is the size of
    frame 0, [sprite_w] by [sprite_h], which depends on the image file
    and is a parameter of the constructor. *)

From S2P Require Import Prelude PyFloat Random CellActivity.
Import PyFloat.

Module Cell.

(** [len(Cell.cell_animation)] *)
Definition frame_count : Z := 6.

Record cell := mk_cell {
  animation_speed : float;
  current_frame : Z;
  image : Z;
  rect_x : Z;
  rect_y : Z;
  rect_w : Z;
  rect_h : Z;
  cell_activity : CellActivity.activity;
  energy : float;
  secondary_metabolites : float;
  iterations_since_birth : Z;
  dead : bool;
  max_iterations : Z
}.

Definition set_frame (f : Z) (c : cell) : cell :=
  mk_cell (animation_speed c) f (image c) (rect_x c) (rect_y c) (rect_w c) (rect_h c)
    (cell_activity c) (energy c) (secondary_metabolites c) (iterations_since_birth c)
    (dead c) (max_iterations c).
Definition set_image (i : Z) (c : cell) : cell :=
  mk_cell (animation_speed c) (current_frame c) i (rect_x c) (rect_y c) (rect_w c) (rect_h c)
    (cell_activity c) (energy c) (secondary_metabolites c) (iterations_since_birth c)
    (dead c) (max_iterations c).
Definition set_pos (x y : Z) (c : cell) : cell :=
  mk_cell (animation_speed c) (current_frame c) (image c) x y (rect_w c) (rect_h c)
    (cell_activity c) (energy c) (secondary_metabolites c) (iterations_since_birth c)
    (dead c) (max_iterations c).
Definition set_cell_activity (a : CellActivity.activity) (c : cell) : cell :=
  mk_cell (animation_speed c) (current_frame c) (image c) (rect_x c) (rect_y c) (rect_w c)
    (rect_h c) a (energy c) (secondary_metabolites c) (iterations_since_birth c)
    (dead c) (max_iterations c).
Definition set_energy (e : float) (c : cell) : cell :=
  mk_cell (animation_speed c) (current_frame c) (image c) (rect_x c) (rect_y c) (rect_w c)
    (rect_h c) (cell_activity c) e (secondary_metabolites c) (iterations_since_birth c)
    (dead c) (max_iterations c).
Definition set_age (n : Z) (c : cell) : cell :=
  mk_cell (animation_speed c) (current_frame c) (image c) (rect_x c) (rect_y c) (rect_w c)
    (rect_h c) (cell_activity c) (energy c) (secondary_metabolites c) n
    (dead c) (max_iterations c).
Definition set_dead (b : bool) (c : cell) : cell :=
  mk_cell (animation_speed c) (current_frame c) (image c) (rect_x c) (rect_y c) (rect_w c)
    (rect_h c) (cell_activity c) (energy c) (secondary_metabolites c)
    (iterations_since_birth c) b (max_iterations c).

(** The lifespan bounds of [random.randint(1, 72)]. *)
Definition min_lifespan : Z := 1.
Definition max_lifespan : Z := 72.

Section Constructor.
Context {G : Type} `{RandomSource G}.
Context (sprite_w sprite_h : Z).

(** [Cell(screen, animation_speed, initial_x, initial_y)]: the only
    draw of the constructor is [max_iterations]. *)
Definition init (speed : float) (initial_x initial_y : Z) (g : G) : cell * G :=
  let '(max_it, g') := randint min_lifespan max_lifespan g in
  (mk_cell speed 0 0 initial_x initial_y sprite_w sprite_h
     (CellActivity.init CellActivity.default_nutrients) (of_int 0) (of_int 0) 0 false max_it,
   g').
End Constructor.

(** [update_image]: one frame forward, modulo [len(cell_animation)]. *)
Definition update_image (c : cell) : cell :=
  let f := (current_frame c + 1) mod frame_count in
  set_image f (set_frame f c).

(** [update_animation]: [int(self.animation_speed)] calls of
    [update_image]; [range] of a negative count is empty, and [int()]
    raises on a NaN or infinite speed ([None]). *)
Definition update_animation (c : cell) : option cell :=
  match to_int (animation_speed c) with
  | Some n => Some (Nat.iter (Z.to_nat n) update_image c)
  | None => None
  end.

(** [die] *)
Definition die (c : cell) : cell := set_dead true c.

#[export] Instance cell_carrier : CellActivity.Carrier cell := {
  carrier_activity := cell_activity;
  set_carrier_activity := set_cell_activity;
  energy := energy;
  set_energy := set_energy;
  is_dead := dead;
  die := die
}.

#[export] Instance cell_carrier_laws : CellActivity.CarrierLaws cell.
Proof. constructor; reflexivity. Qed.

(** ** Theorems *)

(** The animation cursor is in range and [image] shows its frame. *)
Definition frame_ok (c : cell) : Prop :=
  0 <= current_frame c < frame_count /\ image c = current_frame c.

Lemma iter_update_image (c : cell) (k : nat) :
  frame_ok c ->
  frame_ok (Nat.iter k update_image c) /\
  current_frame (Nat.iter k update_image c) = (current_frame c + Z.of_nat k) mod frame_count.
Proof.
  unfold frame_ok, frame_count. intros [Hr Hi].
  induction k as [|k (_ & IH)]; simpl Nat.iter.
  - rewrite Z.add_0_r, Z.mod_small by lia. auto.
  - cbn. rewrite IH, Zplus_mod_idemp_l, Nat2Z.inj_succ, <- Z.add_1_r, Z.add_assoc.
    unfold frame_count. pose proof (Z.mod_pos_bound (current_frame c + Z.of_nat k + 1) 6). lia.
Qed.

(** C17: [update_animation] advances the cursor by [int(animation_speed)]
    frames (none for a negative count) modulo the 6 frames, keeps it in
    range, and raises exactly when the speed is NaN or infinite. *)
Theorem update_animation_advances (c : cell) :
  frame_ok c ->
  match to_int (animation_speed c) with
  | Some n => exists c', update_animation c = Some c' /\ frame_ok c' /\
      current_frame c' = (current_frame c + Z.max 0 n) mod frame_count
  | None => update_animation c = None
  end.
Proof.
  intros Hok. unfold update_animation.
  destruct (to_int (animation_speed c)) as [n|]; [|done].
  eexists; split; [reflexivity|].
  destruct (iter_update_image c (Z.to_nat n) Hok) as [H1 H2].
  split; [done|]. rewrite H2. f_equal. f_equal. lia.
Qed.

Section ConstructorFacts.
Context {G : Type} `{RandomSourceLaws G}.

(** A new cell ([Cell(...)], used for the initial population, the
    click spawn and division) sits where it was asked, has age [0], is
    alive, has the sprite's size, a full pool of [100] nutrients, the
    cursor on frame 0, and a lifespan in [1..72]. *)
Lemma init_fresh (w h : Z) (speed : float) (x y : Z) (g : G) :
  let c := fst (init w h speed x y g) in
  rect_x c = x /\ rect_y c = y /\ rect_w c = w /\ rect_h c = h /\
  iterations_since_birth c = 0 /\ dead c = false /\ animation_speed c = speed /\
  CellActivity.nutrients (cell_activity c) = of_int 100 /\
  CellActivity.iterations_without_nutrients (cell_activity c) = 0 /\
  frame_ok c /\ current_frame c = 0 /\
  min_lifespan <= max_iterations c <= max_lifespan.
Proof.
  unfold init. pose proof (randint_range min_lifespan max_lifespan g) as Hr.
  destruct (randint min_lifespan max_lifespan g) as [m g']. simpl in *.
  unfold frame_ok, frame_count, min_lifespan, max_lifespan in *.
  specialize (Hr ltac:(lia)). cbn. repeat split; lia.
Qed.
End ConstructorFacts.

(** ** Witnesses, on cells built by the constructor *)

Import Lcg.

Definition sample_cell : cell := fst (init 64 64 (lit 3 2) 100 200 (Lcg.mk 42)).
Definition starving_cell : cell := set_cell_activity (CellActivity.init 0) sample_cell.

Lemma starvation_kills_after_five_witness :
  (CellActivity.nutrients (CellActivity.carrier_activity starving_cell) .>=
     CellActivity.nutrient_consumption)%pyf = false /\
  CellActivity.is_dead (Nat.iter 4 CellActivity.update_activity starving_cell) = false /\
  CellActivity.is_dead (Nat.iter 5 CellActivity.update_activity starving_cell) = true.
Proof.
  assert (H : (CellActivity.nutrients (CellActivity.carrier_activity starving_cell) .>=
                 CellActivity.nutrient_consumption)%pyf = false) by reflexivity.
  split; [exact H|split].
  - destruct (CellActivity.starvation_kills_after_five starving_cell 4 H) as (_ & _ & D).
    rewrite D. reflexivity.
  - destruct (CellActivity.starvation_kills_after_five starving_cell 5 H) as (_ & _ & D).
    rewrite D. reflexivity.
Defined.

Lemma fresh_pool_lasts_1000_ticks_witness :
  CellActivity.is_dead (Nat.iter 1005 CellActivity.update_activity sample_cell) = true.
Proof.
  assert (H1 : CellActivity.carrier_activity sample_cell =
                CellActivity.init CellActivity.default_nutrients) by reflexivity.
  assert (H2 : CellActivity.is_dead sample_cell = false) by reflexivity.
  destruct (CellActivity.fresh_pool_lasts_1000_ticks sample_cell H1 H2) as (_ & _ & _ & D).
  exact D.
Defined.

Lemma update_activity_feeds_witness :
  (CellActivity.nutrients (CellActivity.carrier_activity sample_cell) .>=
     CellActivity.nutrient_consumption)%pyf = true /\
  CellActivity.carrier_activity (CellActivity.update_activity sample_cell) =
    CellActivity.fed (CellActivity.carrier_activity sample_cell).
Proof.
  assert (H1 : (CellActivity.nutrients (CellActivity.carrier_activity sample_cell) .>=
                  CellActivity.nutrient_consumption)%pyf = true) by (vm_compute; reflexivity).
  assert (H2 : is_finite (CellActivity.nutrients (CellActivity.carrier_activity sample_cell) .-
                            CellActivity.nutrient_consumption)%pyf = true) by (vm_compute; reflexivity).
  split; [exact H1|]. exact (proj1 (CellActivity.update_activity_feeds sample_cell H1 H2)).
Defined.

Lemma update_animation_advances_witness :
  frame_ok sample_cell /\ update_animation sample_cell <> None.
Proof.
  assert (H : frame_ok sample_cell).
  { unfold frame_ok, frame_count.
    replace (current_frame sample_cell) with 0 by reflexivity.
    replace (image sample_cell) with 0 by reflexivity. lia. }
  split; [exact H|].
  pose proof (update_animation_advances sample_cell H) as A.
  revert A. vm_compute. intros (c' & E & _). rewrite E. discriminate.
Defined.

End Cell.
