(* ===== verification/Population.v ===== *)
(** The global list [cells] and the [Cell] methods that read it.

    In [src/under_micro.py] the population is the module-level list
    [cells]; [Cell.divide] appends to it and [Cell.check_available_space]
    scans it (lines 88-117), and [Cell.update_activity] (lines 73-83)
    calls [divide].  These methods are modelled on the list itself: the
    cell [self] is the element at index [i], and [other_cell != self]
    (object identity, [Cell] has no [__eq__]) is [j <> i], which is
    faithful because no object occurs twice in [cells] (every element is
    built by its own constructor call).  The line-211 comprehension that
    drops dead cells is [cull].

    Section variables: the random source [G] and the sprite size
    [sprite_w] x [sprite_h] of a new cell's rect. *)

From S2P Require Import Prelude PyFloat Random CellActivity Cell.
Import PyFloat Cell.
Local Open Scope pyf_scope.

Module Population.

(** [required_space = 50] and the division period [20]. *)
Definition required_space : Z := 50.
Definition division_period : Z := 20.

(** [self.rect.width / 2 + other_cell.rect.width / 2]: int true
    division, exact for widths below [2^53], as CPython divides two
    such ints by converting them. *)
Definition combined_radius (c1 c2 : cell) : float :=
  (of_int (rect_w c1) ./ of_int 2) .+ (of_int (rect_w c2) ./ of_int 2).

(** The test of line 112: [distance_squared < (combined_radius + required_space) ** 2]. *)
Definition too_close (self other : cell) : bool :=
  let dx := rect_x other - rect_x self in
  let dy := rect_y other - rect_y self in
  let distance_squared := dx ^ 2 + dy ^ 2 in
  int_lt distance_squared (sq (combined_radius self other .+ of_int required_space)).

(** The loop of lines 105-114 over [cells] from index [j], [self] being
    at index [i]: [False] at the first other cell too close. *)
Fixpoint check_from (self : cell) (i j : nat) (others : list cell) : bool :=
  match others with
  | [] => true
  | other :: rest =>
      if (j =? i)%nat then check_from self i (S j) rest
      else if too_close self other then false
      else check_from self i (S j) rest
  end.

(** [check_available_space] of the cell at index [i] (a method call on
    an element of [cells], so [i] is in range; out of range it answers
    [True], which no call reaches). *)
Definition check_available_space (i : nat) (cells : list cell) : bool :=
  match cells !! i with
  | Some self => check_from self i 0 cells
  | None => true
  end.

Section WithSource.
Context {G : Type} `{RandomSource G}.
Context (sprite_w sprite_h : Z).

(** [divide] of the cell at index [i]: a child at the parent's
    position with the parent's speed, appended to [cells]. *)
Definition divide (i : nat) (cells : list cell) (g : G) : list cell * G :=
  match cells !! i with
  | Some self =>
      if check_available_space i cells then
        let '(new_cell, g') :=
          Cell.init sprite_w sprite_h (animation_speed self) (rect_x self) (rect_y self) g in
        (* new_cell.iterations_since_birth = 0; new_cell.dead = False *)
        let new_cell := set_dead false (set_age 0 new_cell) in
        (cells ++ [new_cell], g')
      else (cells, g)
  | None => (cells, g)
  end.

(** Whether an age (after the increment) triggers a division attempt:
    [iterations_since_birth % 20 == 0 and iterations_since_birth != 0]. *)
Definition division_due (age : Z) : bool :=
  (age mod division_period =? 0) && negb (age =? 0).

(** [Cell.update_activity] of the cell at index [i]. *)
Definition update_activity (i : nat) (cells : list cell) (g : G) : list cell * G :=
  match cells !! i with
  | None => (cells, g)
  | Some c =>
      (* self.cell_activity.update_activity(self) *)
      let c := CellActivity.update_activity c in
      (* self.iterations_since_birth += 1 *)
      let c := set_age (iterations_since_birth c + 1) c in
      let cells := <[i := c]> cells in
      let '(cells, g) :=
        if division_due (iterations_since_birth c) then divide i cells g else (cells, g) in
      match cells !! i with
      | None => (cells, g)
      | Some c =>
          if max_iterations c <=? iterations_since_birth c
          then (<[i := Cell.die c]> cells, g)
          else (cells, g)
      end
  end.
End WithSource.

(** Line 211: [cells = [cell for cell in cells if not cell.dead]]. *)
Definition cull (cells : list cell) : list cell := filter (fun c => dead c = false) cells.

(** ** Lemmas *)

(** The fields of a cell that the pool's update leaves alone. *)
Definition same_body (c c' : cell) : Prop :=
  animation_speed c' = animation_speed c /\ current_frame c' = current_frame c /\
  image c' = image c /\ rect_x c' = rect_x c /\ rect_y c' = rect_y c /\
  rect_w c' = rect_w c /\ rect_h c' = rect_h c /\
  iterations_since_birth c' = iterations_since_birth c /\ max_iterations c' = max_iterations c.

Lemma pool_update_same_body (c : cell) : same_body c (CellActivity.update_activity c).
Proof.
  unfold CellActivity.update_activity, same_body. cbn.
  repeat match goal with |- context [if ?b then _ else _] => destruct b end;
    cbn; repeat split.
Qed.

Lemma check_from_spec (self : cell) (i j : nat) (others : list cell) :
  check_from self i j others = true <->
  forall k o, others !! k = Some o -> (j + k)%nat <> i -> too_close self o = false.
Proof.
  revert j. induction others as [|o rest IH]; intros j; simpl.
  - split; [intros _ k o H; done | done].
  - destruct (Nat.eqb_spec j i) as [->|Hne].
    + rewrite IH. split.
      * intros Hall [|k] o' Hk Hki; simpl in Hk; [simplify_eq; lia|].
        apply (Hall k); [done | lia].
      * intros Hall k o' Hk Hki. apply (Hall (S k)); [done | lia].
    + destruct (too_close self o) eqn:Ec.
      * split; [done|]. intros Hall. rewrite (Hall 0%nat o) in Ec; [done | done | lia].
      * rewrite IH. split.
        -- intros Hall [|k] o' Hk Hki; simpl in Hk; [by simplify_eq|].
           apply (Hall k); [done | lia].
        -- intros Hall k o' Hk Hki. apply (Hall (S k)); [done | lia].
Qed.

(** C7: the early-return loop of [check_available_space] answers [True]
    exactly when every other element of [cells] passes the distance test
    of line 112 (dead cells not yet culled included). *)
Theorem check_available_space_spec (i : nat) (cells : list cell) (self : cell) :
  cells !! i = Some self ->
  check_available_space i cells = true <->
  forall j other, j <> i -> cells !! j = Some other -> too_close self other = false.
Proof.
  intros Hi. unfold check_available_space. rewrite Hi, check_from_spec.
  split; intros Hall j o.
  - intros Hne Hj. by apply (Hall j o).
  - intros Hj Hne. by apply (Hall j o).
Qed.

Section WithSourceFacts.
Context {G : Type} `{RandomSourceLaws G}.
Context (sprite_w sprite_h : Z).

(** The child [divide] builds for parent [self] from generator [g]. *)
Definition child_of (self : cell) (g : G) : cell :=
  set_dead false (set_age 0
    (fst (Cell.init sprite_w sprite_h (animation_speed self) (rect_x self) (rect_y self) g))).

Lemma divide_cases (i : nat) (cells : list cell) (g : G) (self : cell) :
  cells !! i = Some self ->
  divide sprite_w sprite_h i cells g =
    if check_available_space i cells
    then (cells ++ [child_of self g],
          snd (Cell.init sprite_w sprite_h (animation_speed self) (rect_x self) (rect_y self) g))
    else (cells, g).
Proof.
  intros Hi. unfold divide, child_of. rewrite Hi.
  destruct (check_available_space i cells); [|done].
  destruct (Cell.init _ _ _ _ _ g); done.
Qed.

(** C6: [divide] appends exactly one cell when the space check passes
    and changes nothing otherwise; the child sits on its parent's
    position (at distance 0 from it), has the parent's speed, age 0,
    is alive and has a lifespan in [1..72]; and every other cell passed
    the distance test. *)
Theorem divide_spec (i : nat) (cells : list cell) (g : G) (self : cell) :
  cells !! i = Some self ->
  let '(cells', g') := divide sprite_w sprite_h i cells g in
  (check_available_space i cells = true /\
   exists child, cells' = cells ++ [child] /\
     rect_x child = rect_x self /\ rect_y child = rect_y self /\
     animation_speed child = animation_speed self /\
     iterations_since_birth child = 0 /\ dead child = false /\
     Cell.min_lifespan <= max_iterations child <= Cell.max_lifespan /\
     (forall j other, j <> i -> cells !! j = Some other -> too_close self other = false))
  \/ (check_available_space i cells = false /\ cells' = cells /\ g' = g).
Proof.
  intros Hi. rewrite (divide_cases i cells g self Hi).
  destruct (check_available_space i cells) eqn:Ec; [left|right; done].
  split; [done|]. exists (child_of self g). split; [done|].
  destruct (Cell.init_fresh sprite_w sprite_h (animation_speed self) (rect_x self)
              (rect_y self) g) as (Hx & Hy & _ & _ & _ & _ & Hs & _ & _ & _ & _ & Hm).
  unfold child_of; cbn. repeat split; try done; try lia.
  intros j o Hne Hj. unfold check_available_space in Ec. rewrite Hi, check_from_spec in Ec.
  by apply (Ec j o).
Qed.

(** The end of [update_activity]: the lifespan check on the cell at
    [i] after the cells [extra] have been appended. *)
Lemma lifespan_check (i : nat) (l extra : list cell) (c1 : cell) (g : G) :
  (i < length l)%nat ->
  (match (<[i:=c1]> l ++ extra) !! i with
   | None => (<[i:=c1]> l ++ extra, g)
   | Some c => if max_iterations c <=? iterations_since_birth c
               then (<[i := Cell.die c]> (<[i:=c1]> l ++ extra), g)
               else (<[i:=c1]> l ++ extra, g)
   end) =
  (<[i := if max_iterations c1 <=? iterations_since_birth c1 then Cell.die c1 else c1]> l
     ++ extra, g).
Proof.
  intros Hlt. rewrite lookup_app_l by (rewrite length_insert; lia).
  rewrite list_lookup_insert_eq by lia.
  destruct (max_iterations c1 <=? iterations_since_birth c1); [|done].
  rewrite insert_app_l by (rewrite length_insert; lia).
  rewrite list_insert_insert_eq. done.
Qed.

(** [Cell.update_activity] on the cell [c] at index [i], case by case:
    [c] is replaced by [c2], its pool ticked, one tick older, and killed
    if it reached its lifespan, and [divide]'s child is appended when
    the age is a positive multiple of 20 and the space check passes on
    the list holding the aged cell. *)
Lemma update_activity_cases (i : nat) (cells : list cell) (g : G) (c : cell) :
  cells !! i = Some c ->
  let c1 := set_age (iterations_since_birth c + 1) (CellActivity.update_activity c) in
  let c2 := if max_iterations c <=? iterations_since_birth c + 1 then Cell.die c1 else c1 in
  let '(cells', g') := update_activity sprite_w sprite_h i cells g in
  (division_due (iterations_since_birth c + 1) &&
     check_available_space i (<[i:=c1]> cells) = false /\
   cells' = <[i := c2]> cells /\ g' = g)
  \/ (division_due (iterations_since_birth c + 1) &&
       check_available_space i (<[i:=c1]> cells) = true /\
   cells' = <[i := c2]> cells ++ [child_of c g] /\
   g' = snd (Cell.init sprite_w sprite_h (animation_speed c) (rect_x c) (rect_y c) g)).
Proof.
  intros Hi c1 c2. pose proof (lookup_lt_Some _ _ _ Hi) as Hlt.
  destruct (pool_update_same_body c) as (Hs & _ & _ & Hx & Hy & _ & _ & Ha & Hm).
  unfold update_activity. rewrite Hi. cbv zeta. rewrite Ha. fold c1.
  assert (Hc2 : (if max_iterations c1 <=? iterations_since_birth c1
                 then Cell.die c1 else c1) = c2) by (unfold c2; cbn; rewrite Hm; done).
  assert (Hch : child_of c1 g = child_of c g) by (unfold child_of; cbn; rewrite Hs, Hx, Hy; done).
  replace (iterations_since_birth c1) with (iterations_since_birth c + 1) by done.
  destruct (division_due (iterations_since_birth c + 1)); cbn [andb].
  - rewrite (divide_cases i (<[i:=c1]> cells) g c1) by (apply list_lookup_insert_eq; lia).
    destruct (check_available_space i (<[i:=c1]> cells)).
    + rewrite lifespan_check, Hc2, Hch by done. cbv beta iota. right.
      unfold c1. cbn. rewrite Hs, Hx, Hy. repeat split.
    + rewrite <- (app_nil_r (<[i:=c1]> cells)), lifespan_check, Hc2, app_nil_r by done.
      cbv beta iota. left. repeat split.
  - rewrite <- (app_nil_r (<[i:=c1]> cells)), lifespan_check, Hc2, app_nil_r by done.
    cbv beta iota. left. repeat split.
Qed.

(** C5: [Cell.update_activity] on the cell [c] at index [i]: the cell
    stays at [i], one tick older, dead if it was, if its pool's tick
    starved it to death or if its new age reached its lifespan; the
    other cells are unchanged; the list grows by one cell exactly when
    the new age is a positive multiple of 20 and the space check passes,
    and by none otherwise. *)
Theorem update_activity_ages_cell (i : nat) (cells : list cell) (g : G) (c : cell) :
  cells !! i = Some c ->
  let cells' := fst (update_activity sprite_w sprite_h i cells g) in
  exists c',
    cells' !! i = Some c' /\
    iterations_since_birth c' = iterations_since_birth c + 1 /\
    dead c' = dead c || CellActivity.kills (cell_activity c) ||
              (max_iterations c <=? iterations_since_birth c + 1) /\
    (forall j, j <> i -> (j < length cells)%nat -> cells' !! j = cells !! j) /\
    ((length cells' = length cells /\
      division_due (iterations_since_birth c + 1) &&
      check_available_space i (<[i := set_age (iterations_since_birth c + 1)
                                       (CellActivity.update_activity c)]> cells) = false) \/
     (length cells' = S (length cells) /\
      division_due (iterations_since_birth c + 1) &&
      check_available_space i (<[i := set_age (iterations_since_birth c + 1)
                                       (CellActivity.update_activity c)]> cells) = true)).
Proof.
  intros Hi cells'. pose proof (lookup_lt_Some _ _ _ Hi) as Hlt.
  pose proof (update_activity_cases i cells g c Hi) as Hc. unfold cells'.
  destruct (CellActivity.update_activity_proj c) as [_ Hd].
  change (dead (CellActivity.update_activity c) =
          dead c || CellActivity.kills (cell_activity c)) in Hd.
  destruct (pool_update_same_body c) as (_ & _ & _ & _ & _ & _ & _ & Ha & Hm).
  destruct (update_activity sprite_w sprite_h i cells g) as [cs g']. cbn [fst].
  set (c1 := set_age (iterations_since_birth c + 1) (CellActivity.update_activity c)) in *.
  set (c2 := if max_iterations c <=? iterations_since_birth c + 1 then Cell.die c1 else c1) in *.
  assert (Hc2 : iterations_since_birth c2 = iterations_since_birth c + 1 /\
                dead c2 = dead c || CellActivity.kills (cell_activity c) ||
                          (max_iterations c <=? iterations_since_birth c + 1)).
  { unfold c2, c1. destruct (max_iterations c <=? _); split; try reflexivity.
    - change (true = dead c || CellActivity.kills (cell_activity c) || true).
      by rewrite orb_true_r.
    - change (dead (CellActivity.update_activity c) =
              dead c || CellActivity.kills (cell_activity c) || false).
      by rewrite Hd, orb_false_r. }
  exists c2. destruct Hc as [(Hf & -> & _)|(Hf & -> & _)].
  - split; [rewrite list_lookup_insert_eq; [done|lia]|]. split; [apply Hc2|]. split; [apply Hc2|].
    split; [intros j Hj _; by rewrite list_lookup_insert_ne|]. left.
    rewrite length_insert. split; [reflexivity|exact Hf].
  - split; [rewrite lookup_app_l, list_lookup_insert_eq; [done|lia|rewrite length_insert; lia]|].
    split; [apply Hc2|]. split; [apply Hc2|].
    split; [intros j Hj Hj'; rewrite lookup_app_l by (rewrite length_insert; lia);
            by rewrite list_lookup_insert_ne|].
    right. rewrite length_app, length_insert. simpl. split; [lia|done].
Qed.
End WithSourceFacts.

(** ** Witnesses *)

Section Witnesses.
Import Lcg.

Definition sample_head : cell := fst (Cell.init 64 64 (lit 1 1) 100 100 (Lcg.mk 3)).
Definition sample_far : cell := fst (Cell.init 64 64 (lit 1 1) 400 400 (Lcg.mk 5)).
Definition sample_near : cell := fst (Cell.init 64 64 (lit 1 1) 130 110 (Lcg.mk 9)).
Definition sample_cells : list cell := [sample_head; sample_far; sample_near].

Lemma check_available_space_spec_witness :
  sample_cells !! 0%nat = Some sample_head /\
  (check_available_space 0 sample_cells = true <->
   forall j other, j <> 0%nat -> sample_cells !! j = Some other ->
                   too_close sample_head other = false).
Proof.
  assert (H : sample_cells !! 0%nat = Some sample_head) by reflexivity.
  split; [exact H|].
  pose proof (check_available_space_spec 0 sample_cells sample_head H) as D. exact D.
Defined.

Lemma divide_spec_witness :
  sample_cells !! 1%nat = Some sample_far /\
  let '(cells', g') := divide 64 64 1 sample_cells (Lcg.mk 11) in
  (check_available_space 1 sample_cells = true /\
   exists child, cells' = sample_cells ++ [child] /\
     rect_x child = rect_x sample_far /\ rect_y child = rect_y sample_far /\
     animation_speed child = animation_speed sample_far /\
     iterations_since_birth child = 0 /\ dead child = false /\
     Cell.min_lifespan <= max_iterations child <= Cell.max_lifespan /\
     (forall j other, j <> 1%nat -> sample_cells !! j = Some other ->
        too_close sample_far other = false))
  \/ (check_available_space 1 sample_cells = false /\ cells' = sample_cells /\ g' = Lcg.mk 11).
Proof.
  assert (H : sample_cells !! 1%nat = Some sample_far) by reflexivity.
  split; [exact H|].
  pose proof (divide_spec 64 64 1 sample_cells (Lcg.mk 11) sample_far H) as D. exact D.
Defined.

Lemma update_activity_ages_cell_witness :
  sample_cells !! 0%nat = Some sample_head /\
  exists c', fst (update_activity 64 64 0 sample_cells (Lcg.mk 11)) !! 0%nat = Some c' /\
             iterations_since_birth c' = iterations_since_birth sample_head + 1.
Proof.
  assert (H : sample_cells !! 0%nat = Some sample_head) by reflexivity.
  split; [exact H|].
  destruct (update_activity_ages_cell 64 64 0 sample_cells (Lcg.mk 11) sample_head H)
    as (c' & Hl & Ha & _). exists c'. split; [exact Hl|exact Ha].
Defined.
End Witnesses.

End Population.
