(* ===== verification/Collisions.v ===== *)
(** Collision resolution: the double loop of [src/under_micro.py]
    lines 186-208, run once per frame over [cells] before culling.

    [resolve_pair i j] is the body for one pair [(i, j)], [i < j]: it reads
    both cells' current positions (earlier pairs may have moved them),
    and when the squared distance is below the squared combined radius
    and the distance is not [0.0], moves cell [i] by the truncated
    displacement [(int(dx), int(dy))] and cell [j] by its opposite.  All
    the arithmetic is Python's: [math.sqrt] of the int [distance_squared]
    converts it to float first; [dx *= overlap / distance] multiplies
    [float(dx)] by a float; [int()] raises on a NaN or infinite value,
    which is [None] here and makes the whole pass [None].
    [resolve_collisions] runs the pairs in the code's order:
    [for i in range(len(cells)): for j in range(i + 1, len(cells))]. *)

From S2P Require Import Prelude PyFloat Random CellActivity Cell Population.
Import PyFloat Cell.
Local Open Scope pyf_scope.

Module Collisions.

(** The displacement [(int(dx), int(dy))] the body applies to a pair at
    offset [(dx, dy)] with combined radius [cr], when it applies one:
    [None] when the pair does not overlap or coincides, [Some None] when
    [int()] raises, [Some (Some (ix, iy))] otherwise. *)
Definition displacement (dx dy : Z) (cr : float) : option (option (Z * Z)) :=
  let distance_squared := dx ^ 2 + dy ^ 2 in
  if int_lt distance_squared (sq cr) then
    let distance := sqrt (of_int distance_squared) in
    if ne_int distance 0 then
      let overlap := cr .- distance in
      let fx := of_int dx .* (overlap ./ distance) in
      let fy := of_int dy .* (overlap ./ distance) in
      match to_int fx, to_int fy with
      | Some ix, Some iy => Some (Some (ix, iy))
      | _, _ => Some None
      end
    else None
  else None.

(** One iteration of the inner loop, on the pair [(i, j)]. *)
Definition resolve_pair (i j : nat) (cells : list cell) : option (list cell) :=
  match cells !! i, cells !! j with
  | Some ci, Some cj =>
      match displacement (rect_x ci - rect_x cj) (rect_y ci - rect_y cj)
              (Population.combined_radius ci cj) with
      | None => Some cells
      | Some None => None
      | Some (Some (ix, iy)) =>
          (* cells[i].rect.x += int(dx); cells[i].rect.y += int(dy) *)
          let cells := <[i := set_pos (rect_x ci + ix) (rect_y ci + iy) ci]> cells in
          (* cells[j].rect.x -= int(dx); cells[j].rect.y -= int(dy) *)
          Some (<[j := set_pos (rect_x cj - ix) (rect_y cj - iy) cj]> cells)
      end
  | _, _ => Some cells
  end.

(** [for j in range(j0, j0 + k)] *)
Fixpoint inner_loop (i j k : nat) (cells : list cell) : option (list cell) :=
  match k with
  | O => Some cells
  | S k => cells ← resolve_pair i j cells; inner_loop i (S j) k cells
  end.

(** [for i in range(i0, i0 + k)], with [n = len(cells)]. *)
Fixpoint outer_loop (i k n : nat) (cells : list cell) : option (list cell) :=
  match k with
  | O => Some cells
  | S k => cells ← inner_loop i (S i) (n - S i) cells; outer_loop (S i) k n cells
  end.

Definition resolve_collisions (cells : list cell) : option (list cell) :=
  outer_loop 0 (length cells) (length cells) cells.

(** ** What the pass changes *)

(** [c'] is [c] moved: equal to [c] but for the position. *)
Definition same_but_pos (c c' : cell) : Prop := set_pos (rect_x c) (rect_y c) c' = c.

(** [cells'] is [cells] with cells moved, and the sums of the
    coordinates (the population's centre of mass, times its size) kept. *)
Definition displaced (cells cells' : list cell) : Prop :=
  Forall2 same_but_pos cells cells' /\
  sum_with rect_x cells' = sum_with rect_x cells /\
  sum_with rect_y cells' = sum_with rect_y cells.

#[export] Instance same_but_pos_preorder : PreOrder same_but_pos.
Proof.
  split.
  - intros [] ; reflexivity.
  - intros c c' c'' H1 H2. unfold same_but_pos in *.
    transitivity (set_pos (rect_x c) (rect_y c) c'); [|exact H1].
    rewrite <- H2. destruct c''; reflexivity.
Qed.

#[export] Instance displaced_preorder : PreOrder displaced.
Proof.
  split.
  - intros l. split; [reflexivity|done].
  - intros l1 l2 l3 (F1 & X1 & Y1) (F2 & X2 & Y2). split; [|lia].
    etransitivity; [exact F1|exact F2].
Qed.

Lemma displaced_move (cells : list cell) (i : nat) (c : cell) (x y : Z) :
  cells !! i = Some c ->
  Forall2 same_but_pos cells (<[i := set_pos x y c]> cells) /\
  sum_with rect_x (<[i := set_pos x y c]> cells) = sum_with rect_x cells - rect_x c + x /\
  sum_with rect_y (<[i := set_pos x y c]> cells) = sum_with rect_y cells - rect_y c + y.
Proof.
  intros Hi. rewrite !(sum_with_insert _ _ _ _ c Hi). split; [|done].
  apply Forall2_same_length_lookup. rewrite length_insert. split; [done|].
  intros j a b Ha Hb. rewrite list_lookup_insert in Hb.
  case_decide as E; [destruct E as [-> _]; simplify_eq; destruct c; reflexivity|].
  rewrite Ha in Hb. simplify_eq. reflexivity.
Qed.

Lemma resolve_pair_displaced (i j : nat) (cells cells' : list cell) :
  i <> j -> resolve_pair i j cells = Some cells' -> displaced cells cells'.
Proof.
  intros Hij. unfold resolve_pair.
  destruct (cells !! i) as [ci|] eqn:Hi; [|intros; simplify_eq; reflexivity].
  destruct (cells !! j) as [cj|] eqn:Hj; [|intros; simplify_eq; reflexivity].
  destruct (displacement _ _ _) as [[[ix iy]|]|]; intros H; simplify_eq; [|reflexivity].
  destruct (displaced_move cells i ci (rect_x ci + ix) (rect_y ci + iy) Hi) as (F1 & X1 & Y1).
  assert (Hj' : <[i := set_pos (rect_x ci + ix) (rect_y ci + iy) ci]> cells !! j = Some cj)
    by (rewrite list_lookup_insert_ne; done).
  destruct (displaced_move _ j cj (rect_x cj - ix) (rect_y cj - iy) Hj') as (F2 & X2 & Y2).
  split; [|lia].
  etransitivity; [exact F1|exact F2].
Qed.

Lemma inner_loop_displaced (i j k : nat) (cells cells' : list cell) :
  (i < j)%nat -> inner_loop i j k cells = Some cells' -> displaced cells cells'.
Proof.
  revert j cells. induction k as [|k IH]; intros j cells Hlt; simpl.
  - intros; simplify_eq; reflexivity.
  - destruct (resolve_pair i j cells) as [c1|] eqn:E; simpl; [|done].
    intros H. assert (Hij : i <> j) by lia.
    transitivity c1; [exact (resolve_pair_displaced i j cells c1 Hij E)|].
    eapply IH; [|exact H]. lia.
Qed.

Lemma outer_loop_displaced (i k n : nat) (cells cells' : list cell) :
  outer_loop i k n cells = Some cells' -> displaced cells cells'.
Proof.
  revert i cells. induction k as [|k IH]; intros i cells; simpl.
  - intros; simplify_eq; reflexivity.
  - destruct (inner_loop i (S i) (n - S i) cells) as [c1|] eqn:E; simpl; [|done].
    intros H. transitivity c1; [|eapply IH, H].
    apply (inner_loop_displaced i (S i) (n - S i)); [lia|exact E].
Qed.

(** C11: the collision pass only moves cells: when it completes, every
    cell keeps all its attributes but its position, the list keeps its
    length and order, and the sums of the [x] and of the [y]
    coordinates are unchanged, since each pair is pushed by opposite
    integer displacements. *)
Theorem resolve_collisions_displaced (cells cells' : list cell) :
  resolve_collisions cells = Some cells' ->
  length cells' = length cells /\ displaced cells cells'.
Proof.
  intros H. pose proof (outer_loop_displaced _ _ _ _ _ H) as D.
  split; [|done]. destruct D as [F _]. symmetry. by rewrite F.
Qed.

(** At offset [(0, 0)] the body moves nothing: either the radius test
    fails or [math.sqrt(0) = 0.0] and [distance != 0] is false. *)
Lemma displacement_coincident (cr : float) : displacement 0 0 cr = None.
Proof. unfold displacement. destruct (int_lt _ _); reflexivity. Qed.

(** C12: a pair whose rects sit at the same position is left where it
    is ([distance != 0] is false), whatever the radius; the code has no
    fallback direction for exact overlaps. *)
Theorem resolve_pair_coincident (i j : nat) (cells : list cell) (ci cj : cell) :
  cells !! i = Some ci -> cells !! j = Some cj ->
  rect_x ci = rect_x cj -> rect_y ci = rect_y cj ->
  resolve_pair i j cells = Some cells.
Proof.
  intros Hi Hj Hx Hy. unfold resolve_pair. rewrite Hi, Hj, Hx, Hy, !Z.sub_diag.
  rewrite displacement_coincident. reflexivity.
Qed.

(** A cell of width and height 40 at [(x, 0)], for the probes below;
    the other attributes play no part in the pass. *)
Definition probe (x : Z) : cell :=
  mk_cell (of_int 1) 0 0 x 0 40 40 (CellActivity.init CellActivity.default_nutrients)
    (of_int 0) (of_int 0) 0 false 72.

Definition positions (cs : list cell) : list (Z * Z) := map (fun c => (rect_x c, rect_y c)) cs.

(** The pass on the two probes at [0] and [d] moves them to [d - 40]
    and [40]. *)
Definition pushed_apart (d : Z) : bool :=
  bool_decide (option_map positions (resolve_collisions [probe 0; probe d]) =
               Some [(d - 40, 0); (40, 0)]).

Lemma push_table : forallb (fun n => pushed_apart (Z.of_nat n)) (seq 1 39) = true.
Proof. vm_compute. reflexivity. Qed.

(** C14: two cells of width 40 at horizontal distance [d] in [1..39]
    overlap by [40 - d]; the pass pushes each of them away by that whole
    overlap, to [d - 40] and [40], so they end [80 - d] apart instead of
    touching at distance [40]. *)
Theorem collision_pushes_full_overlap (d : Z) :
  1 <= d < 40 ->
  option_map positions (resolve_collisions [probe 0; probe d]) = Some [(d - 40, 0); (40, 0)].
Proof.
  intros Hd. pose proof push_table as T. rewrite forallb_forall in T.
  assert (Hin : In (Z.to_nat d) (seq 1 39)) by (apply in_seq; lia).
  specialize (T _ Hin). rewrite Z2Nat.id in T by lia.
  unfold pushed_apart in T. apply bool_decide_eq_true in T. exact T.
Qed.

(** ** Witnesses *)

Lemma resolve_collisions_displaced_witness :
  resolve_collisions [probe 0; probe 10] = Some [set_pos (-30) 0 (probe 0); set_pos 40 0 (probe 10)] /\
  length [set_pos (-30) 0 (probe 0); set_pos 40 0 (probe 10)] = length [probe 0; probe 10].
Proof.
  assert (H : resolve_collisions [probe 0; probe 10] =
              Some [set_pos (-30) 0 (probe 0); set_pos 40 0 (probe 10)]) by (vm_compute; reflexivity).
  split; [exact H|].
  destruct (resolve_collisions_displaced _ _ H) as [L _]. exact L.
Defined.

Lemma resolve_pair_coincident_witness :
  resolve_pair 0 1 [probe 5; probe 5; probe 30] = Some [probe 5; probe 5; probe 30].
Proof.
  assert (H0 : [probe 5; probe 5; probe 30] !! 0%nat = Some (probe 5)) by reflexivity.
  assert (H1 : [probe 5; probe 5; probe 30] !! 1%nat = Some (probe 5)) by reflexivity.
  exact (resolve_pair_coincident 0 1 _ _ _ H0 H1 eq_refl eq_refl).
Defined.

Lemma collision_pushes_full_overlap_witness :
  option_map positions (resolve_collisions [probe 0; probe 10]) = Some [(-30, 0); (40, 0)].
Proof.
  assert (H : 1 <= 10 < 40) by lia.
  exact (collision_pushes_full_overlap 10 H).
Defined.

End Collisions.
