(* ===== verification/Loop.v ===== *)
(** The main loop of [src/under_micro.py] (lines 119-265).

    One iteration of [while running:] is [loop_iteration]: it drains the
    pending events ([handle_events]: the quit event calls [sys.exit()],
    a left click on the music button switches track, any other left
    click spawns a cell at the pointer), resolves collisions, culls the
    dead cells, runs the per-cell body of lines 213-227 ([cell_step]) over
    [cells], and updates the three counters.  The per-cell loop is
    [for cell in cells:] over a list that [divide] appends to while it
    is traversed: Python's list iterator re-reads the length at every
    step, so appended children are visited in the same frame.  It is
    [update_loop], which walks the indices with fuel; [update_fuel] is
    enough (theorem [update_loop_terminates] in this file).

    Drawing, [display.flip] and [clock.tick(5)] are not modelled.  The
    outcome of an iteration is [Running] (next state), [Exited] (the
    quit event; the state when [sys.exit()] ran) or [Raised] (an [int()]
    of the collision pass raised). *)

From S2P Require Import Prelude PyFloat Random CellActivity Cell Population Collisions.
Import PyFloat Cell.

Module Loop.

(** [screen_size = (907, 838)] *)
Definition screen_w : Z := 907.
Definition screen_h : Z := 838.

(** A pygame [Rect] (left, top, width, height) and [collidepoint]: the
    right and bottom edges are outside. *)
Record rect := mk_rect { r_left : Z; r_top : Z; r_width : Z; r_height : Z }.

Definition collidepoint (r : rect) (x y : Z) : bool :=
  (r_left r <=? x) && (x <? r_left r + r_width r) &&
  (r_top r <=? y) && (y <? r_top r + r_height r).

Definition panel_height : Z := 200.
Definition button_width : Z := 100.
Definition button_height : Z := 50.

(** [button_rect = pygame.Rect(screen_size[0] - button_width - 10,
    screen_size[1] - panel_height + 10, button_width, button_height)] *)
Definition button_rect : rect :=
  mk_rect (screen_w - button_width - 10) (screen_h - panel_height + 10)
    button_width button_height.

(** [len(bg_sound_paths)]: two tracks. *)
Definition track_count : Z := 2.

(** The music player: [current_bg_sound_index], the track of the
    [Sound] object [bg_sound], and whether it plays. *)
Record music := mk_music {
  current_bg_sound_index : Z;
  bg_sound : Z;
  bg_playing : bool
}.

(** Lines 173-177. *)
Definition switch_track (m : music) : music :=
  let idx := (current_bg_sound_index m + 1) mod track_count in
  (* bg_sound.stop() *)
  let m := mk_music idx (bg_sound m) false in
  if idx <? track_count then
    (* bg_sound = pygame.mixer.Sound(bg_sound_paths[idx]); bg_sound.play() *)
    mk_music idx idx true
  else m.

(** Lines 129-132: track 0 loaded and playing. *)
Definition initial_music : music := mk_music 0 0 true.

Inductive event :=
| Quit                                  (** [pygame.QUIT] *)
| MouseButtonDown (button : Z) (pos : Z * Z)
| OtherEvent.

Record state (G : Type) := mk_state {
  cells : list cell;
  rng : G;
  iteration_counter : Z;
  newborn_counter : Z;
  dead_counter : Z;
  player : music
}.
Arguments mk_state {G}.
Arguments cells {G}.
Arguments rng {G}.
Arguments iteration_counter {G}.
Arguments newborn_counter {G}.
Arguments dead_counter {G}.
Arguments player {G}.

Inductive outcome (G : Type) :=
| Running (st : state G)
| Exited (st : state G)
| Raised (st : state G).
Arguments Running {G}.
Arguments Exited {G}.
Arguments Raised {G}.

(** [max(0, min(v, hi))] of lines 224-225. *)
Definition clamp (v hi : Z) : Z := Z.max 0 (Z.min v hi).

(** The number of initial cells, [num_cells = 10]. *)
Definition num_cells : nat := 10.

(** [cell.iterations_since_birth == n], the test the newborn counter of
    line 264 applies with [n = 1]. *)
Definition age_is (n : Z) (c : cell) : bool := iterations_since_birth c =? n.

(** A cell just built by [Cell(...)]: age [0] and alive. *)
Definition fresh (c : cell) : Prop := iterations_since_birth c = 0 /\ dead c = false.

Section WithSource.
Context {G : Type} `{RandomSource G}.
Context (sprite_w sprite_h : Z).

Definition set_cells (cs : list cell) (g : G) (st : state G) : state G :=
  mk_state cs g (iteration_counter st) (newborn_counter st) (dead_counter st) (player st).

(** One event of the [for event in pygame.event.get()] loop; [None] is
    [sys.exit()]. *)
Definition handle_event (e : event) (st : state G) : option (state G) :=
  match e with
  | Quit => None
  | MouseButtonDown button (x, y) =>
      if button =? 1 then
        if collidepoint button_rect x y then
          Some (mk_state (cells st) (rng st) (iteration_counter st) (newborn_counter st)
                  (dead_counter st) (switch_track (player st)))
        else
          (* Cell(screen, animation_speed=random.uniform(0.5, 2.0),
                  initial_x=event.pos[0], initial_y=event.pos[1]) *)
          let '(speed, g) := uniform (lit 1 2) (of_int 2) (rng st) in
          let '(c, g) := Cell.init sprite_w sprite_h speed x y g in
          Some (set_cells (cells st ++ [c]) g st)
      else Some st
  | OtherEvent => Some st
  end.

Inductive drained := Drained (st : state G) | Exit (st : state G).

Fixpoint handle_events (evs : list event) (st : state G) : drained :=
  match evs with
  | [] => Drained st
  | e :: evs =>
      match handle_event e st with
      | None => Exit st
      | Some st => handle_events evs st
      end
  end.

(** The body of [for cell in cells:] (lines 214-227) for the cell at
    index [i]; [cell.output()] draws and is not modelled. *)
Definition cell_step (i : nat) (cs : list cell) (g : G) : list cell * G :=
  match cs !! i with
  | None => (cs, g)
  | Some c =>
      let cs := <[i := update_image c]> cs in
      let '(cs, g) := Population.update_activity sprite_w sprite_h i cs g in
      match cs !! i with
      | None => (cs, g)
      | Some c =>
          let '(rx, g) := randint (-10) 10 g in
          let '(ry, g) := randint (-10) 10 g in
          let x := rect_x c + rx in
          let y := rect_y c + ry in
          let x := clamp x (screen_w - rect_w c) in
          let y := clamp y (screen_h - rect_h c) in
          (<[i := set_pos x y c]> cs, g)
      end
  end.

(** [for cell in cells:] from index [i], with fuel. *)
Fixpoint update_loop (fuel : nat) (i : nat) (cs : list cell) (g : G)
  : option (list cell * G) :=
  match fuel with
  | O => None
  | S fuel =>
      if (i <? length cs)%nat then
        let '(cs, g) := cell_step i cs g in update_loop fuel (S i) cs g
      else Some (cs, g)
  end.

(** Every cell is visited once and a visit appends at most one child,
    which is not due to divide in the same frame. *)
Definition update_fuel (cs : list cell) : nat := S (2 * length cs).

Definition update_all (cs : list cell) (g : G) : list cell * G :=
  match update_loop (update_fuel cs) 0 cs g with
  | Some r => r
  | None => (cs, g)
  end.

(** One iteration of [while running:]. *)
Definition loop_iteration (evs : list event) (st : state G) : outcome G :=
  match handle_events evs st with
  | Exit st => Exited st
  | Drained st =>
      match Collisions.resolve_collisions (cells st) with
      | None => Raised st
      | Some cs =>
          let cs := Population.cull cs in
          let '(cs, g) := update_all cs (rng st) in
          Running (mk_state cs g
                     (iteration_counter st + 1)
                     (newborn_counter st + Z.of_nat (count_if (fun c => iterations_since_birth c =? 1) cs))
                     (dead_counter st + Z.of_nat (count_if dead cs))
                     (player st))
      end
  end.

(** pygame stores a float coordinate in a [Rect] by a C [(int)] cast. *)
Definition rect_coord (f : float) : Z := match to_int f with Some z => z | None => 0 end.

(** Lines 135-139: [num_cells] cells, each drawing its speed, then
    [x], then [y], then (in the constructor) its lifespan. *)
Fixpoint spawn_initial (n : nat) (g : G) : list cell * G :=
  match n with
  | O => ([], g)
  | S n =>
      let '(speed, g) := uniform (lit 1 2) (of_int 2) g in
      let '(x, g) := uniform (of_int 0) (of_int screen_w) g in
      let '(y, g) := uniform (of_int 0) (of_int screen_h) g in
      let '(c, g) := Cell.init sprite_w sprite_h speed (rect_coord x) (rect_coord y) g in
      let '(cs, g) := spawn_initial n g in
      (c :: cs, g)
  end.

Definition init_state (g : G) : state G :=
  let '(cs, g) := spawn_initial num_cells g in
  mk_state cs g 0 0 0 initial_music.

(** [while running:] as a transition relation: one iteration that
    neither exits nor raises, whatever events were pending. *)
Inductive step : state G -> state G -> Prop :=
| step_iter (evs : list event) (st st' : state G) :
    loop_iteration evs st = Running st' -> step st st'.

(** The states the program reaches, from any seed of the generator. *)
Inductive reachable : state G -> Prop :=
| reach_init (g : G) : reachable (init_state g)
| reach_step (st st' : state G) : reachable st -> step st st' -> reachable st'.
End WithSource.

(** ** The per-cell body and the termination of [for cell in cells] *)

Lemma insert_collapse {A} (l extra : list A) (i : nat) (a b c : A) :
  (i < length l)%nat -> <[i:=a]> (<[i:=b]> (<[i:=c]> l) ++ extra) = <[i:=a]> l ++ extra.
Proof.
  intros Hlt. rewrite insert_app_l by (rewrite !length_insert; lia).
  rewrite !list_insert_insert_eq. done.
Qed.

Lemma update_image_same (c : cell) :
  iterations_since_birth (update_image c) = iterations_since_birth c /\
  max_iterations (update_image c) = max_iterations c.
Proof. done. Qed.

Section StepFacts.
Context {G : Type} `{RandomSourceLaws G}.
Context (sprite_w sprite_h : Z).

(** The cell at [i] after the body, before the jitter. *)
Definition aged (c : cell) : cell :=
  let c1 := set_age (iterations_since_birth c + 1)
              (CellActivity.update_activity (update_image c)) in
  if max_iterations c <=? iterations_since_birth c + 1 then Cell.die c1 else c1.

(** What the body does to each attribute of the visited cell, before
    the jitter. *)
Lemma aged_fields (c : cell) :
  rect_w (aged c) = rect_w c /\ rect_h (aged c) = rect_h c /\
  max_iterations (aged c) = max_iterations c /\
  iterations_since_birth (aged c) = iterations_since_birth c + 1 /\
  current_frame (aged c) = current_frame (update_image c) /\
  image (aged c) = image (update_image c) /\
  cell_activity (aged c) = CellActivity.activity_step (cell_activity c) /\
  energy (aged c) =
    (if CellActivity.nutrients (cell_activity c) .>= CellActivity.nutrient_consumption
     then energy c .+ CellActivity.nutrient_consumption else energy c)%pyf /\
  dead (aged c) = dead c || CellActivity.kills (cell_activity c) ||
                  (max_iterations c <=? iterations_since_birth c + 1).
Proof.
  set (u := update_image c).
  destruct (CellActivity.update_activity_proj u) as [Pa Pd].
  pose proof (CellActivity.update_activity_energy u) as Pe.
  destruct (Population.pool_update_same_body u) as (_ & Hf & Him & _ & _ & Hw & Hh & Ha & Hm).
  cbn [CellActivity.carrier_activity CellActivity.is_dead CellActivity.energy cell_carrier] in Pa, Pd, Pe.
  assert (Hu : cell_activity u = cell_activity c /\ energy u = energy c /\ dead u = dead c /\
               rect_w u = rect_w c /\ rect_h u = rect_h c /\
               iterations_since_birth u = iterations_since_birth c /\
               max_iterations u = max_iterations c) by (repeat split).
  destruct Hu as (Ua & Ue & Ud & Uw & Uh & Uag & Um).
  rewrite Ua in Pa, Pd, Pe. rewrite Ue, Ud in *.
  unfold aged. fold u.
  destruct (max_iterations c <=? iterations_since_birth c + 1);
    cbn [rect_w rect_h max_iterations iterations_since_birth current_frame image
         cell_activity energy dead Cell.die set_dead set_age];
    rewrite ?Hw, ?Hh, ?Hm, ?Hf, ?Him, ?Ha, ?Pa, ?Pd, ?Pe, ?Uw, ?Uh, ?Um, ?Uag,
      ?orb_true_r, ?orb_false_r; repeat split.
Qed.

(** The jittered and clamped position of line 220-225. *)
Definition jittered (c : cell) (rx ry : Z) : cell :=
  set_pos (clamp (rect_x c + rx) (screen_w - rect_w c))
          (clamp (rect_y c + ry) (screen_h - rect_h c)) c.

(** The body on the cell [c] at index [i]: [c] is replaced by [aged c]
    jittered by two draws in [-10..10], and at most the division child
    of [update_image c] is appended, only when the age reaches a
    positive multiple of 20. *)
Lemma cell_step_spec (i : nat) (cs : list cell) (g : G) (c : cell) :
  cs !! i = Some c ->
  exists rx ry extra,
    fst (cell_step sprite_w sprite_h i cs g) = <[i := jittered (aged c) rx ry]> cs ++ extra /\
    -10 <= rx <= 10 /\ -10 <= ry <= 10 /\
    (extra = [] \/
     exists g0, extra = [Population.child_of sprite_w sprite_h (update_image c) g0] /\
                Population.division_due (iterations_since_birth c + 1) = true).
Proof.
  intros Hi. pose proof (lookup_lt_Some _ _ _ Hi) as Hlt.
  unfold cell_step. rewrite Hi.
  assert (Hu : <[i:=update_image c]> cs !! i = Some (update_image c))
    by (apply list_lookup_insert_eq; lia).
  pose proof (Population.update_activity_cases sprite_w sprite_h i _ g _ Hu) as Hspec.
  destruct (Population.update_activity sprite_w sprite_h i (<[i:=update_image c]> cs) g)
    as [cs1 g1].
  assert (Hfin : forall extra g2, cs1 = <[i := aged c]> (<[i:=update_image c]> cs) ++ extra ->
    (extra = [] \/ exists g0, extra = [Population.child_of sprite_w sprite_h (update_image c) g0] /\
                Population.division_due (iterations_since_birth c + 1) = true) ->
    exists rx ry extra,
      fst (match cs1 !! i with
           | None => (cs1, g2)
           | Some c0 => let '(rx, g) := randint (-10) 10 g2 in let '(ry, g) := randint (-10) 10 g in
               (<[i := set_pos (clamp (rect_x c0 + rx) (screen_w - rect_w c0))
                        (clamp (rect_y c0 + ry) (screen_h - rect_h c0)) c0]> cs1, g)
           end) = <[i := jittered (aged c) rx ry]> cs ++ extra /\
      -10 <= rx <= 10 /\ -10 <= ry <= 10 /\
      (extra = [] \/ exists g0, extra = [Population.child_of sprite_w sprite_h (update_image c) g0] /\
                Population.division_due (iterations_since_birth c + 1) = true)).
  { intros extra g2 -> Hex.
    rewrite lookup_app_l, list_lookup_insert_eq by (rewrite ?length_insert; lia).
    pose proof (randint_range (-10) 10 g2 ltac:(lia)) as Rx.
    destruct (randint (-10) 10 g2) as [rx g3]. simpl in Rx.
    pose proof (randint_range (-10) 10 g3 ltac:(lia)) as Ry.
    destruct (randint (-10) 10 g3) as [ry g4]. simpl in Ry.
    exists rx, ry, extra. rewrite insert_collapse by lia. auto. }
  destruct Hspec as [(_ & -> & _)|(Hd & -> & _)].
  - apply (Hfin []); [by rewrite app_nil_r|auto].
  - apply andb_true_iff in Hd as [Hd _].
    apply (Hfin [Population.child_of sprite_w sprite_h (update_image c) g]); [done|].
    right. eexists; eauto.
Qed.

(** C15: in the main loop a visited cell's animation advances by
    exactly one frame per iteration ([cell.update_image()], line 214),
    whatever its [animation_speed]: [update_animation], which would
    advance [int(animation_speed)] frames, is never called. *)
Theorem cell_step_advances_one_frame (i : nat) (cs : list cell) (g : G) (c : cell) :
  cs !! i = Some c ->
  exists c', fst (cell_step sprite_w sprite_h i cs g) !! i = Some c' /\
    current_frame c' = (current_frame c + 1) mod frame_count /\ image c' = current_frame c'.
Proof.
  intros Hi. pose proof (lookup_lt_Some _ _ _ Hi) as Hlt.
  destruct (cell_step_spec i cs g c Hi) as (rx & ry & extra & -> & _).
  eexists. rewrite lookup_app_l, list_lookup_insert_eq by (rewrite ?length_insert; lia).
  split; [reflexivity|].
  destruct (Population.pool_update_same_body (update_image c)) as (_ & Hf & Him & _).
  unfold jittered, aged. destruct (_ <=? _); cbn -[CellActivity.update_activity];
    rewrite Hf, Him; split; reflexivity.
Qed.

(** C16: a left click outside the music button spawns a new cell at the
    pointer: age [0], alive, a full pool of [100] nutrients and a
    lifespan in [1..72], appended after the existing cells; nothing else
    of the state changes but the generator. *)
Theorem click_spawns_fresh_cell (st : state G) (x y : Z) :
  collidepoint button_rect x y = false ->
  exists c g', handle_event sprite_w sprite_h (MouseButtonDown 1 (x, y)) st =
                 Some (set_cells (cells st ++ [c]) g' st) /\
    rect_x c = x /\ rect_y c = y /\ iterations_since_birth c = 0 /\ dead c = false /\
    CellActivity.nutrients (cell_activity c) = of_int 100 /\
    min_lifespan <= max_iterations c <= max_lifespan.
Proof.
  intros Hc. unfold handle_event. rewrite Z.eqb_refl, Hc.
  destruct (uniform _ _ (rng st)) as [sp g1].
  destruct (init_fresh sprite_w sprite_h sp x y g1) as (Hx & Hy & _ & _ & Ha & Hd & _ & Hn & _ & _ & _ & Hm).
  destruct (Cell.init sprite_w sprite_h sp x y g1) as [c g2]. simpl in *.
  exists c, g2. auto 8.
Qed.

(** The termination measure of [update_loop]: a cell still to visit
    weighs 2 if its visit can append a child and 1 otherwise. *)
Definition weight (c : cell) : nat :=
  if Population.division_due (iterations_since_birth c + 1) then 2 else 1.
Definition potential (i : nat) (cs : list cell) : nat := sum_list_with weight (drop i cs).

Lemma cell_step_potential (i : nat) (cs : list cell) (g : G) (c : cell) :
  cs !! i = Some c ->
  (potential (S i) (fst (cell_step sprite_w sprite_h i cs g)) < potential i cs)%nat.
Proof.
  intros Hi. pose proof (lookup_lt_Some _ _ _ Hi).
  destruct (cell_step_spec i cs g c Hi) as (rx & ry & extra & -> & _ & _ & Hex).
  unfold potential. rewrite drop_app_le by (rewrite length_insert; lia).
  rewrite drop_insert_lt by lia. rewrite sum_list_with_app, (drop_S cs c i Hi). simpl.
  destruct Hex as [->|(g0 & -> & Hd)]; simpl.
  - unfold weight. destruct (Population.division_due (iterations_since_birth c + 1)); lia.
  - unfold weight at 2. rewrite Hd. unfold weight, Population.child_of. cbn. lia.
Qed.

Lemma update_loop_some (fuel i : nat) (cs : list cell) (g : G) :
  (potential i cs < fuel)%nat ->
  exists r, update_loop sprite_w sprite_h fuel i cs g = Some r.
Proof.
  revert i cs g. induction fuel as [|fuel IH]; intros i cs g Hp; [lia|]. simpl.
  destruct (Nat.ltb_spec i (length cs)) as [Hlt|Hge]; [|eauto].
  destruct (lookup_lt_is_Some_2 cs i Hlt) as [c Hi].
  pose proof (cell_step_potential i cs g c Hi) as Hd.
  destruct (cell_step sprite_w sprite_h i cs g) as [cs' g']. simpl in Hd.
  apply IH. lia.
Qed.

Lemma potential_le (i : nat) (cs : list cell) : (potential i cs <= 2 * length (drop i cs))%nat.
Proof.
  unfold potential. induction (drop i cs) as [|c l IH]; [simpl; lia|].
  change (weight c + sum_list_with weight l <= 2 * S (length l))%nat. unfold weight at 1.
  destruct (Population.division_due (iterations_since_birth c + 1)); lia.
Qed.

(** C4: the per-cell loop [for cell in cells] terminates although
    [divide] appends to the list it walks: a visit appends at most one
    child, a child is never due to divide in the frame of its birth,
    so [update_fuel cells = 2 * len(cells) + 1] steps always suffice
    and [update_loop] never runs out of fuel. *)
Theorem update_loop_terminates (cs : list cell) (g : G) :
  exists r, update_loop sprite_w sprite_h (update_fuel cs) 0 cs g = Some r.
Proof.
  apply update_loop_some. unfold update_fuel.
  pose proof (potential_le 0 cs) as Hp. rewrite drop_0 in Hp. lia.
Qed.
(** [update_all] is the loop run with fuel [update_fuel], which suffices. *)
Lemma update_all_loop (cs : list cell) (g : G) :
  update_loop sprite_w sprite_h (update_fuel cs) 0 cs g = Some (update_all sprite_w sprite_h cs g).
Proof.
  unfold update_all.
  destruct (update_loop_some (update_fuel cs) 0 cs g) as [r E].
  { unfold update_fuel. pose proof (potential_le 0 cs) as Hp. rewrite drop_0 in Hp. lia. }
  rewrite E. reflexivity.
Qed.

(** ** Ages through the per-cell loop *)

Lemma child_of_age (self : cell) (g0 : G) :
  iterations_since_birth (Population.child_of sprite_w sprite_h self g0) = 0.
Proof. reflexivity. Qed.

(** A visit makes the visited cell one tick older; the cells of age [1]
    after it are those that had age [0] before. *)
Lemma jittered_aged_age_is (c : cell) (rx ry : Z) :
  age_is 1 (jittered (aged c) rx ry) = age_is 0 c.
Proof.
  destruct (aged_fields c) as (_ & _ & _ & Ha & _).
  unfold age_is. change ((iterations_since_birth (aged c) =? 1) = (iterations_since_birth c =? 0)).
  rewrite Ha. apply Bool.eq_iff_eq_true. rewrite !Z.eqb_eq. lia.
Qed.

(** From index [i] on, the loop makes every cell one tick older and
    visits the children it appends, which are born at age [0]: the cells
    of age [1] at the end are those of age [1] before [i], those of age
    [0] from [i] on, and all the appended ones. *)
Lemma update_loop_newborns (fuel i : nat) (cs cs' : list cell) (g g' : G) :
  update_loop sprite_w sprite_h fuel i cs g = Some (cs', g') ->
  (length cs <= length cs' /\
   count_if (age_is 1) cs' + length cs =
   count_if (age_is 1) (take i cs) + count_if (age_is 0) (drop i cs) + length cs')%nat.
Proof.
  revert i cs g. induction fuel as [|fuel IH]; intros i cs g; cbn [update_loop]; [done|].
  destruct (Nat.ltb_spec i (length cs)) as [Hlt|Hge].
  - destruct (lookup_lt_is_Some_2 cs i Hlt) as [c Hi].
    destruct (cell_step_spec i cs g c Hi) as (rx & ry & extra & Hcs & _ & _ & Hex).
    destruct (cell_step sprite_w sprite_h i cs g) as [cs1 g1]. cbn in Hcs. subst cs1.
    intros E. destruct (IH _ _ _ E) as [Hlen IHc]. clear IH E.
    assert (Hx : count_if (age_is 0) extra = length extra).
    { destruct Hex as [->|(g0 & -> & _)]; [done|].
      cbn [count_if length]. unfold age_is. rewrite child_of_age. reflexivity. }
    rewrite take_app_le, drop_app_le in IHc by (rewrite length_insert; lia).
    rewrite (take_S_r _ _ (jittered (aged c) rx ry)) in IHc
      by (apply list_lookup_insert_eq; lia).
    rewrite take_insert, drop_insert_lt, decide_False in IHc by lia.
    rewrite length_app, length_insert in Hlen, IHc.
    rewrite !count_if_app, Hx in IHc. cbn [count_if] in IHc.
    rewrite jittered_aged_age_is in IHc.
    rewrite (drop_S cs c i Hi). cbn [count_if]. split; [lia|].
    destruct (age_is 0 c); lia.
  - intros E. simplify_eq. rewrite take_ge, drop_ge by lia. cbn [count_if]. lia.
Qed.

(** The whole loop from index [0]. *)
Lemma update_all_newborns (cs : list cell) (g : G) :
  (length cs <= length (fst (update_all sprite_w sprite_h cs g)) /\
   count_if (age_is 1) (fst (update_all sprite_w sprite_h cs g)) + length cs =
   count_if (age_is 0) cs + length (fst (update_all sprite_w sprite_h cs g)))%nat.
Proof.
  pose proof (update_all_loop cs g) as E.
  destruct (update_all sprite_w sprite_h cs g) as [cs' g'].
  destruct (update_loop_newborns _ _ _ _ _ _ E) as [Hl N].
  rewrite take_0, drop_0 in N. cbn [count_if fst take]. cbn [take count_if] in N. lia.
Qed.

(** ** What the events do to the population *)

(** An event keeps the cells and the counters and appends at most a
    fresh cell. *)
Lemma handle_event_appends (e : event) (st st' : state G) :
  handle_event sprite_w sprite_h e st = Some st' ->
  newborn_counter st' = newborn_counter st /\
  exists sp, cells st' = cells st ++ sp /\ Forall fresh sp.
Proof.
  assert (Hnil : newborn_counter st = newborn_counter st /\
                 exists sp, cells st = cells st ++ sp /\ Forall fresh sp)
    by (split; [done|]; exists []; rewrite app_nil_r; auto).
  destruct e as [|b [x y]|]; cbn [handle_event]; intros E; [done| |simplify_eq; exact Hnil].
  destruct (b =? 1); [|simplify_eq; exact Hnil].
  destruct (collidepoint _ _ _); [simplify_eq; exact Hnil|].
  destruct (uniform _ _ (rng st)) as [sp g1].
  destruct (init_fresh sprite_w sprite_h sp x y g1) as (_ & _ & _ & _ & Ha & Hd & _).
  destruct (Cell.init sprite_w sprite_h sp x y g1) as [c g2]. cbn in Ha, Hd. simplify_eq.
  split; [done|]. exists [c]. split; [done|]. constructor; [split; done|constructor].
Qed.

Lemma handle_events_appends (evs : list event) (st st' : state G) :
  handle_events sprite_w sprite_h evs st = Drained st' ->
  newborn_counter st' = newborn_counter st /\
  exists sp, cells st' = cells st ++ sp /\ Forall fresh sp.
Proof.
  revert st. induction evs as [|e evs IH]; intros st; cbn [handle_events].
  - intros E. simplify_eq. split; [done|]. exists []. rewrite app_nil_r. auto.
  - destruct (handle_event sprite_w sprite_h e st) as [st1|] eqn:E1; [|done].
    intros E. destruct (IH _ E) as (Hn & sp2 & Hc2 & Hf2).
    destruct (handle_event_appends _ _ _ E1) as (Hn1 & sp1 & Hc1 & Hf1).
    split; [congruence|]. exists (sp1 ++ sp2). rewrite Hc2, Hc1, app_assoc.
    split; [done|]. apply Forall_app. auto.
Qed.
End StepFacts.

(** ** Witnesses, on the cells of [Population] and the linear
    congruential generator *)

Section Witnesses.
Import Lcg.

Definition sample_start : state Lcg.t := init_state 64 64 (Lcg.mk 7).

Lemma update_loop_terminates_witness :
  update_loop 64 64 (update_fuel Population.sample_cells) 0 Population.sample_cells (Lcg.mk 7)
    <> None.
Proof.
  destruct (update_loop_terminates 64 64 Population.sample_cells (Lcg.mk 7)) as [r E].
  rewrite E. discriminate.
Defined.

Lemma cell_step_advances_one_frame_witness :
  Population.sample_cells !! 0%nat = Some Population.sample_head /\
  exists c', fst (cell_step 64 64 0 Population.sample_cells (Lcg.mk 7)) !! 0%nat = Some c' /\
    current_frame c' = 1.
Proof.
  assert (H : Population.sample_cells !! 0%nat = Some Population.sample_head) by reflexivity.
  split; [exact H|].
  destruct (cell_step_advances_one_frame 64 64 0 Population.sample_cells (Lcg.mk 7) _ H)
    as (c' & E & F & _).
  exists c'. split; [exact E|]. rewrite F. vm_compute. reflexivity.
Defined.

Lemma click_spawns_fresh_cell_witness :
  collidepoint button_rect 10 10 = false /\
  exists c g', handle_event 64 64 (MouseButtonDown 1 (10, 10)) sample_start =
                 Some (set_cells (cells sample_start ++ [c]) g' sample_start) /\
    rect_x c = 10 /\ iterations_since_birth c = 0.
Proof.
  assert (H : collidepoint button_rect 10 10 = false) by (vm_compute; reflexivity).
  split; [exact H|].
  destruct (click_spawns_fresh_cell 64 64 sample_start 10 10 H)
    as (c & g' & E & Hx & _ & Ha & _).
  exists c, g'. split; [exact E|]. split; [exact Hx|exact Ha].
Defined.
End Witnesses.

End Loop.
