(* ===== verification/Invariants.v ===== *)
(** Invariants of the running program.

    [cell_inv] describes every cell of every reachable state: the sprite
    size, an age within its lifespan of [1..72] ticks, [dead] exactly
    when the lifespan is reached, and a pool and an energy that are
    functions of the age alone ([pool_after], [energy_after]): a cell
    consumes [0.1] nutrients on every tick of its life.  Since a pool of
    [100] lasts 1000 ticks and no cell lives more than 72, no cell ever
    starves.  The invariant is proved through one loop iteration
    ([loop_iteration_preserves]) and then over the reachable states by
    induction on the step relation ([reachable_inv]).  The same
    invariant (a cell of age [0] is alive) gives what an iteration adds
    to [newborn_counter] ([newborn_counter_counts_new_cells]). *)

From S2P Require Import Prelude PyFloat Random CellActivity Cell Population Collisions Loop.
Import PyFloat Cell Loop.
Local Open Scope pyf_scope.

Module Invariants.

(** The pool and the energy of a cell after [k] ticks of its life. *)
Definition pool_after (k : nat) : CellActivity.activity :=
  Nat.iter k CellActivity.activity_step (CellActivity.init CellActivity.default_nutrients).
Definition energy_after (k : nat) : float :=
  Nat.iter k (fun e => e .+ CellActivity.nutrient_consumption) (of_int 0).

(** At age [k] the pool can feed one more tick without rounding to
    infinity. *)
Definition pool_ok (k : nat) : bool :=
  (CellActivity.nutrients (pool_after k) .>= CellActivity.nutrient_consumption) &&
  is_finite (CellActivity.nutrients (pool_after k) .- CellActivity.nutrient_consumption).

Lemma pool_table : forallb pool_ok (seq 0 (Z.to_nat max_lifespan)) = true.
Proof. vm_compute. reflexivity. Qed.

Lemma pool_ok_young (k : nat) : (k < Z.to_nat max_lifespan)%nat -> pool_ok k = true.
Proof.
  intros Hk. pose proof pool_table as T. rewrite forallb_forall in T.
  apply T, in_seq. lia.
Qed.

(** The position is in the window: [0 <= x <= max(0, 907 - width)],
    [0 <= y <= max(0, 838 - height)]. *)
Definition in_bounds (c : cell) : Prop :=
  0 <= rect_x c <= Z.max 0 (screen_w - rect_w c) /\
  0 <= rect_y c <= Z.max 0 (screen_h - rect_h c).

(** How many cells of [cs] the cull of line 211 keeps. *)
Definition survivors (cs : list cell) : nat := count_if (fun c => negb (dead c)) cs.

(** A cell that has never starved and eats on its next tick: no
    starving tick counted and at least [0.1] nutrients in its pool. *)
Definition well_fed (c : cell) : Prop :=
  CellActivity.iterations_without_nutrients (cell_activity c) = 0 /\
  (CellActivity.nutrients (cell_activity c) .>= CellActivity.nutrient_consumption) = true.

Definition cell_inv (w h : Z) (c : cell) : Prop :=
  rect_w c = w /\ rect_h c = h /\
  0 <= iterations_since_birth c <= max_iterations c /\
  min_lifespan <= max_iterations c <= max_lifespan /\
  dead c = (max_iterations c <=? iterations_since_birth c) /\
  cell_activity c = pool_after (Z.to_nat (iterations_since_birth c)) /\
  energy c = energy_after (Z.to_nat (iterations_since_birth c)) /\
  frame_ok c.

(** [cell_inv] does not look at positions. *)
Lemma cell_inv_same_but_pos (w h : Z) (c c' : cell) :
  Collisions.same_but_pos c c' -> cell_inv w h c -> cell_inv w h c'.
Proof. unfold Collisions.same_but_pos. intros <-. destruct c'. done. Qed.

Lemma jittered_inv (w h : Z) (c : cell) (rx ry : Z) :
  cell_inv w h c -> cell_inv w h (jittered c rx ry) /\ in_bounds (jittered c rx ry).
Proof.
  intros Hc. split.
  - eapply cell_inv_same_but_pos; [|exact Hc]. destruct c; reflexivity.
  - unfold in_bounds, jittered, clamp. cbn [rect_x rect_y rect_w rect_h set_pos]. lia.
Qed.

Section Sprite.
Context {G : Type} `{RandomSourceLaws G}.
Context (w h : Z).

Lemma init_inv (speed : float) (x y : Z) (g : G) :
  cell_inv w h (fst (Cell.init w h speed x y g)) /\ dead (fst (Cell.init w h speed x y g)) = false.
Proof.
  destruct (init_fresh w h speed x y g) as (_ & _ & Hw & Hh & Ha & Hd & _ & _ & _ & Hf & _ & Hm).
  unfold cell_inv. rewrite Ha, Hd. unfold min_lifespan, max_lifespan in *.
  unfold frame_ok in *. split; [|done]. repeat split; try lia; try done.
  all: unfold Cell.init; destruct (randint _ _ g); reflexivity.
Qed.

Lemma child_inv (s : cell) (g : G) :
  cell_inv w h (Population.child_of w h s g) /\ dead (Population.child_of w h s g) = false.
Proof.
  unfold Population.child_of.
  destruct (init_inv (animation_speed s) (rect_x s) (rect_y s) g) as [Hc Hd].
  destruct (init_fresh w h (animation_speed s) (rect_x s) (rect_y s) g) as (_ & _ & _ & _ & Ha & _).
  destruct (fst (Cell.init w h (animation_speed s) (rect_x s) (rect_y s) g)).
  cbn in *. subst. done.
Qed.

(** A live cell visited by the per-cell loop keeps the invariant. *)
Lemma aged_inv (c : cell) :
  cell_inv w h c -> dead c = false -> cell_inv w h (aged c).
Proof.
  intros (Hw & Hh & Ha & Hm & Hd & Hp & He & Hf) Halive.
  rewrite Halive in Hd. symmetry in Hd. apply Z.leb_gt in Hd.
  set (k := Z.to_nat (iterations_since_birth c)) in *.
  assert (Hk : (k < Z.to_nat max_lifespan)%nat) by (unfold k, max_lifespan in *; lia).
  pose proof (pool_ok_young k Hk) as Hok. unfold pool_ok in Hok.
  apply andb_true_iff in Hok as [Hge _].
  destruct (aged_fields c) as (Aw & Ah & Am & Aa & Af & Ai & Ap & Ae & Ad).
  rewrite Hp in Ap, Ae, Ad. rewrite He in Ae. rewrite Hge in Ae.
  assert (Hkill : CellActivity.kills (pool_after k) = false)
    by (unfold CellActivity.kills; rewrite Hge; reflexivity).
  rewrite Halive, Hkill in Ad.
  assert (Hk1 : Z.to_nat (iterations_since_birth c + 1) = S k) by (unfold k; lia).
  destruct (iter_update_image c 1 Hf) as [Hfu _].
  unfold cell_inv. rewrite Aw, Ah, Am, Aa, Ap, Ae, Ad, Hk1.
  split; [done|]. split; [done|]. split; [lia|]. split; [lia|].
  split; [reflexivity|]. split; [reflexivity|]. split; [reflexivity|].
  unfold frame_ok in *. rewrite Af, Ai. exact Hfu.
Qed.

(** The loop invariant of [for cell in cells] at index [i]: the cells
    before [i] were visited and are in the window, the cells from [i]
    on are alive. *)
Definition LI (i : nat) (cs : list cell) : Prop :=
  (i <= length cs)%nat /\
  (forall j c, (j < i)%nat -> cs !! j = Some c -> cell_inv w h c /\ in_bounds c) /\
  (forall j c, (i <= j)%nat -> cs !! j = Some c -> cell_inv w h c /\ dead c = false).

Lemma cell_step_LI (i : nat) (cs : list cell) (g : G) :
  (i < length cs)%nat -> LI i cs -> LI (S i) (fst (cell_step w h i cs g)).
Proof.
  intros Hlt (Hle & Hdone & Htodo).
  destruct (lookup_lt_is_Some_2 cs i Hlt) as [c Hi].
  destruct (Htodo i c (le_n i) Hi) as [Hc Halive].
  destruct (cell_step_spec w h i cs g c Hi) as (rx & ry & extra & -> & _ & _ & Hex).
  destruct (jittered_inv w h (aged c) rx ry (aged_inv c Hc Halive)) as [Hc' Hb'].
  assert (Hextra : forall k ch, extra !! k = Some ch -> cell_inv w h ch /\ dead ch = false).
  { destruct Hex as [->|(g0 & -> & _)]; intros k ch Hk; [done|].
    destruct k; [simpl in Hk; simplify_eq; apply child_inv | done]. }
  split; [rewrite length_app, length_insert; lia|split].
  - intros j c0 Hj Hl.
    rewrite lookup_app_l in Hl by (rewrite length_insert; lia).
    destruct (decide (j = i)) as [->|Hne].
    + rewrite list_lookup_insert_eq in Hl by lia. simplify_eq. done.
    + rewrite list_lookup_insert_ne in Hl by congruence. apply (Hdone j); [lia|done].
  - intros j c0 Hj Hl. destruct (decide (j < length cs)%nat).
    + rewrite lookup_app_l in Hl by (rewrite length_insert; lia).
      rewrite list_lookup_insert_ne in Hl by lia. apply (Htodo j); [lia|done].
    + rewrite lookup_app_r in Hl by (rewrite length_insert; lia). eapply Hextra, Hl.
Qed.

Lemma update_loop_LI (fuel i : nat) (cs cs' : list cell) (g g' : G) :
  update_loop w h fuel i cs g = Some (cs', g') -> LI i cs -> LI (length cs') cs'.
Proof.
  revert i cs g. induction fuel as [|fuel IH]; intros i cs g; simpl; [done|].
  destruct (Nat.ltb_spec i (length cs)) as [Hlt|Hge].
  - pose proof (cell_step_LI i cs g Hlt) as Hs.
    destruct (cell_step w h i cs g) as [cs1 g1]. simpl in Hs.
    intros E HL. exact (IH _ _ _ E (Hs HL)).
  - intros E (Hle & Hd & Ht). simplify_eq.
    assert (i = length cs') as -> by lia. split; [lia|]. split; [exact Hd|].
    intros j c Hj Hl. apply lookup_lt_Some in Hl. lia.
Qed.

(** After the per-cell loop every cell keeps the invariant and is in
    the window. *)
Lemma update_all_inv (cs : list cell) (g : G) :
  Forall (fun c => cell_inv w h c /\ dead c = false) cs ->
  Forall (fun c => cell_inv w h c /\ in_bounds c) (fst (update_all w h cs g)).
Proof.
  intros Hall. pose proof (update_all_loop w h cs g) as E.
  destruct (update_all w h cs g) as [cs' g']. simpl.
  assert (HL0 : LI 0 cs).
  { split; [lia|]. split; [intros; lia|].
    intros j c _ Hl. exact (Forall_lookup_1 _ _ _ _ Hall Hl). }
  destruct (update_loop_LI _ _ _ _ _ _ E HL0) as (_ & Hd & _).
  apply Forall_lookup_2. intros j c Hl.
  apply (Hd j c); [eapply lookup_lt_Some; eauto | done].
Qed.

(** The music player alternates between the two tracks and plays. *)
Definition music_ok (m : music) : Prop :=
  (current_bg_sound_index m = 0 \/ current_bg_sound_index m = 1) /\
  bg_sound m = current_bg_sound_index m /\ bg_playing m = true.

Definition state_inv (st : state G) : Prop :=
  Forall (cell_inv w h) (cells st) /\ music_ok (player st).

Lemma switch_track_ok (m : music) : music_ok m -> music_ok (switch_track m).
Proof.
  intros (Hi & Hb & Hp). unfold switch_track, music_ok, track_count.
  destruct Hi as [-> | ->]; cbn; auto.
Qed.

(** C18: the music button switches to the other of the two tracks and
    plays it; the guard [current_bg_sound_index < len(bg_sound_paths)]
    of line 175 always holds after the [% len] of line 173. *)
Theorem switch_track_alternates (m : music) :
  music_ok m ->
  music_ok (switch_track m) /\
  current_bg_sound_index (switch_track m) = 1 - current_bg_sound_index m /\
  ((current_bg_sound_index m + 1) mod track_count <? track_count) = true.
Proof.
  intros (Hi & Hb & Hp). unfold switch_track, music_ok, track_count.
  destruct Hi as [-> | ->]; cbn; repeat split; auto.
Qed.

Lemma handle_event_inv (e : event) (st st' : state G) :
  handle_event w h e st = Some st' -> state_inv st -> state_inv st'.
Proof.
  destruct e as [|b [x y]|]; simpl; intros E [Hall Hm]; [done| |simplify_eq; done].
  destruct (b =? 1); [|simplify_eq; done].
  destruct (collidepoint _ _ _).
  - simplify_eq. split; [done|]. apply switch_track_ok, Hm.
  - destruct (uniform _ _ (rng st)) as [sp g1].
    pose proof (init_inv sp x y g1) as [Hi _].
    destruct (Cell.init w h sp x y g1) as [c g2]. simplify_eq.
    split; [|done]. apply Forall_app. split; [done|]. constructor; [exact Hi|constructor].
Qed.

Lemma handle_events_inv (evs : list event) (st st' : state G) :
  handle_events w h evs st = Drained st' -> state_inv st -> state_inv st'.
Proof.
  revert st. induction evs as [|e evs IH]; intros st; simpl.
  - intros E H1. congruence.
  - destruct (handle_event w h e st) as [st1|] eqn:E1; [|done].
    intros E Hinv. exact (IH _ E (handle_event_inv _ _ _ E1 Hinv)).
Qed.

Lemma collisions_inv (cs cs' : list cell) :
  Collisions.resolve_collisions cs = Some cs' ->
  Forall (cell_inv w h) cs -> Forall (cell_inv w h) cs'.
Proof.
  intros E Hall. unfold Collisions.resolve_collisions in E.
  destruct (Collisions.outer_loop_displaced _ _ _ _ _ E) as [F _].
  apply Forall_lookup_2. intros j c' Hl.
  destruct (Forall2_lookup_r _ _ _ _ _ F Hl) as (c & Hc & Hs).
  exact (cell_inv_same_but_pos w h c c' Hs (Forall_lookup_1 _ _ _ _ Hall Hc)).
Qed.

Lemma cull_inv (cs : list cell) :
  Forall (cell_inv w h) cs ->
  Forall (fun c => cell_inv w h c /\ dead c = false) (Population.cull cs).
Proof.
  rewrite !Forall_forall. intros Hall c Hc.
  apply list_elem_of_filter in Hc as [Hd Hc]. split; [apply Hall|]; done.
Qed.

(** One iteration that goes on keeps the state invariant and leaves
    every cell in the window. *)
Lemma loop_iteration_preserves (evs : list event) (st st' : state G) :
  loop_iteration w h evs st = Running st' -> state_inv st ->
  state_inv st' /\ Forall in_bounds (cells st').
Proof.
  unfold loop_iteration.
  destruct (handle_events w h evs st) as [st1|st1] eqn:Eh; [|done].
  destruct (Collisions.resolve_collisions (cells st1)) as [cs|] eqn:Ec; [|done].
  intros E Hinv. destruct (handle_events_inv _ _ _ Eh Hinv) as [Hc Hm].
  pose proof (update_all_inv _ (rng st1) (cull_inv _ (collisions_inv _ _ Ec Hc))) as Hu.
  destruct (update_all w h (Population.cull cs) (rng st1)) as [cs' g']. simplify_eq.
  simpl in *. split; [split; [|done]|].
  - eapply Forall_impl; [exact Hu|]. intros c []; done.
  - eapply Forall_impl; [exact Hu|]. intros c []; done.
Qed.

Lemma spawn_initial_inv (n : nat) (g : G) : Forall (cell_inv w h) (fst (spawn_initial w h n g)).
Proof.
  revert g. induction n as [|n IH]; intros g; simpl; [constructor|].
  destruct (uniform _ _ g) as [sp g1]. destruct (uniform _ _ g1) as [x g2].
  destruct (uniform _ _ g2) as [y g3].
  pose proof (init_inv sp (rect_coord x) (rect_coord y) g3) as [Hi _].
  destruct (Cell.init w h sp (rect_coord x) (rect_coord y) g3) as [c g4].
  pose proof (IH g4) as Hr. destruct (spawn_initial w h n g4) as [cs g5].
  constructor; done.
Qed.

Lemma init_state_inv (g : G) : state_inv (init_state w h g).
Proof.
  unfold init_state. pose proof (spawn_initial_inv num_cells g) as Hc.
  destruct (spawn_initial w h num_cells g) as [cs g']. split; [done|].
  unfold music_ok. cbn. auto.
Qed.

Lemma reachable_inv (st : state G) : reachable w h st -> state_inv st.
Proof.
  induction 1 as [g|st st' _ IH Hs]; [apply init_state_inv|].
  destruct Hs as [evs st st' E]. exact (proj1 (loop_iteration_preserves _ _ _ E IH)).
Qed.

(** C1: in every reachable state every cell has an age within its
    lifespan, a lifespan in [1..72], is dead exactly when its age has
    reached its lifespan (so a dead cell is culled at the next
    iteration and a live one has ticks left), has the sprite's size,
    and holds the pool of a cell that has eaten on each tick of its
    life; and the music player plays track 0 or 1, the one its index
    names. *)
Theorem reachable_cells_within_lifespan (st : state G) :
  reachable w h st ->
  Forall (fun c =>
    0 <= iterations_since_birth c <= max_iterations c /\
    min_lifespan <= max_iterations c <= max_lifespan /\
    dead c = (max_iterations c <=? iterations_since_birth c) /\
    rect_w c = w /\ rect_h c = h /\
    cell_activity c = pool_after (Z.to_nat (iterations_since_birth c))) (cells st) /\
  music_ok (player st).
Proof.
  intros Hr. destruct (reachable_inv st Hr) as [Hall Hm]. split; [|done].
  eapply Forall_impl; [exact Hall|]. intros c (Hw & Hh & Ha & Hl & Hd & Hp & _). auto 7.
Qed.

(** The pool of a cell of age at most 72 can feed it and has no
    starving tick counted. *)
Definition starve_free (k : nat) : bool :=
  (CellActivity.nutrients (pool_after k) .>= CellActivity.nutrient_consumption) &&
  (CellActivity.iterations_without_nutrients (pool_after k) =? 0).

Lemma starve_table : forallb starve_free (seq 0 (S (Z.to_nat max_lifespan))) = true.
Proof. vm_compute. reflexivity. Qed.

(** C2: no cell of a reachable state has ever starved or can starve on
    its next tick: its starving-tick count is [0] and its pool holds at
    least [0.1].  The starvation branch of [CellActivity.update_activity]
    (lines 27-33) is dead code: a lifespan is at most 72 ticks and a
    pool lasts 1000. *)
Theorem no_cell_starves (st : state G) :
  reachable w h st ->
  Forall well_fed (cells st).
Proof.
  intros Hr. destruct (reachable_inv st Hr) as [Hall _].
  eapply Forall_impl; [exact Hall|]. intros c (_ & _ & Ha & Hm & _ & Hp & _).
  assert (Hk : In (Z.to_nat (iterations_since_birth c)) (seq 0 (S (Z.to_nat max_lifespan))))
    by (apply in_seq; unfold max_lifespan in *; lia).
  pose proof (proj1 (forallb_forall _ _) starve_table _ Hk) as Hs.
  unfold starve_free in Hs. unfold well_fed. rewrite Hp. bools. destruct Hs as [Hge Hz]. auto.
Qed.

(** C3: after every iteration of the loop from a reachable state, every
    cell is inside the window: [0 <= x <= 907 - width] and
    [0 <= y <= 838 - height] (when the sprite fits), children born in
    the iteration included, since the loop also visits them. *)
Theorem step_in_bounds (st st' : state G) :
  reachable w h st -> step w h st st' -> Forall in_bounds (cells st').
Proof.
  intros Hr Hs. destruct Hs as [evs st st' E].
  exact (proj2 (loop_iteration_preserves _ _ _ E (reachable_inv st Hr))).
Qed.
(** A cell of the invariant that has age [0] is alive (its lifespan is
    at least 1). *)
Lemma cell_inv_age0_alive (c : cell) :
  cell_inv w h c -> age_is 0 c = true -> dead c = false.
Proof.
  intros (_ & _ & _ & [Hm _] & Hd & _) Hz. unfold age_is in Hz. apply Z.eqb_eq in Hz.
  rewrite Hd, Hz. apply Z.leb_gt. unfold min_lifespan in Hm. lia.
Qed.

(** C13: one iteration from a reachable state adds to [newborn_counter]
    (line 264, the cells of age [1] after the per-cell loop) the number
    of cells created during the iteration, by clicks and by divisions,
    which is the final length minus the cells kept by the cull, plus the
    cells of the state that still had age [0]: only the initial
    population is in that case, so the first iteration counts the whole
    initial population as newborn. *)
Theorem newborn_counter_counts_new_cells (evs : list event) (st st' : state G) :
  reachable w h st -> loop_iteration w h evs st = Running st' ->
  (survivors (cells st) <= length (cells st'))%nat /\
  newborn_counter st' = newborn_counter st + Z.of_nat (count_if (age_is 0) (cells st)) +
                        (Z.of_nat (length (cells st')) - Z.of_nat (survivors (cells st))).
Proof.
  intros Hr. unfold loop_iteration.
  destruct (handle_events w h evs st) as [st1|st1] eqn:Eh; [|done].
  destruct (Collisions.resolve_collisions (cells st1)) as [cs|] eqn:Ec; [|done].
  intros E. destruct (handle_events_appends w h _ _ _ Eh) as (Hn & sp & Hc & Hsp).
  destruct (handle_events_inv _ _ _ Eh (reachable_inv st Hr)) as [Hi1 _].
  pose proof (collisions_inv _ _ Ec Hi1) as Hics.
  destruct (Collisions.outer_loop_displaced _ _ _ _ _ Ec) as [F _].
  pose proof (update_all_newborns w h (Population.cull cs) (rng st1)) as [Hl N].
  destruct (update_all w h (Population.cull cs) (rng st1)) as [cs' g']. simplify_eq.
  cbn [fst cells newborn_counter] in *.
  assert (Hsame : forall p : cell -> bool,
            (forall c x y, p (set_pos x y c) = p c) -> count_if p cs = count_if p (cells st1)).
  { intros p Hp. symmetry. apply (count_if_Forall2 _ _ _ _ _ F).
    unfold Collisions.same_but_pos. intros x y <-. apply Hp. }
  assert (C0 : count_if (age_is 0) (Population.cull cs) =
               (count_if (age_is 0) (cells st) + length sp)%nat).
  { unfold Population.cull. rewrite count_if_filter.
    - rewrite (Hsame (age_is 0) (fun _ _ _ => eq_refl)), Hc, count_if_app, (count_if_all _ sp); [done|].
      eapply Forall_impl; [exact Hsp|]. intros c [Ha _]. unfold age_is. rewrite Ha. done.
    - eapply Forall_impl; [exact Hics|]. intros c Hci. exact (cell_inv_age0_alive c Hci). }
  assert (C1 : length (Population.cull cs) = (survivors (cells st) + length sp)%nat).
  { unfold Population.cull, survivors.
    rewrite length_filter_count, (Hsame (fun c => negb (dead c)) (fun _ _ _ => eq_refl)), Hc, count_if_app.
    rewrite (count_if_all _ sp); [done|].
    eapply Forall_impl; [exact Hsp|]. intros c [_ Hd]. rewrite Hd. done. }
  rewrite C0, C1 in N. rewrite C1 in Hl. rewrite Hn. unfold age_is in *. split; [lia|]. lia.
Qed.
End Sprite.

(** ** Witnesses: the initial population of [Loop.sample_start] and the
    state after one iteration without events *)

Section Witnesses.
Import Lcg.

Definition sample_next : state Lcg.t :=
  match loop_iteration 64 64 [] sample_start with
  | Running st => st
  | _ => sample_start
  end.

Lemma sample_iteration : loop_iteration 64 64 [] sample_start = Running sample_next.
Proof. vm_compute. reflexivity. Qed.

Lemma sample_step : step 64 64 sample_start sample_next.
Proof. exact (step_iter 64 64 [] _ _ sample_iteration). Qed.

Lemma sample_reachable : reachable 64 64 sample_next.
Proof. apply (reach_step 64 64 sample_start); [apply (reach_init 64 64 (Lcg.mk 7))|exact sample_step]. Qed.

Lemma reachable_cells_within_lifespan_witness :
  reachable 64 64 sample_next /\ music_ok (player sample_next).
Proof.
  split; [exact sample_reachable|].
  exact (proj2 (reachable_cells_within_lifespan 64 64 sample_next sample_reachable)).
Defined.

Lemma no_cell_starves_witness :
  reachable 64 64 sample_next /\
  Forall (fun c => CellActivity.iterations_without_nutrients (cell_activity c) = 0)
    (cells sample_next).
Proof.
  split; [exact sample_reachable|].
  pose proof (no_cell_starves 64 64 sample_next sample_reachable) as D.
  eapply Forall_impl; [exact D|]. intros c [E _]. exact E.
Defined.

Lemma step_in_bounds_witness :
  reachable 64 64 sample_start /\ step 64 64 sample_start sample_next /\
  Forall in_bounds (cells sample_next).
Proof.
  assert (R : reachable 64 64 sample_start) by apply (reach_init 64 64 (Lcg.mk 7)).
  split; [exact R|]. split; [exact sample_step|].
  exact (step_in_bounds 64 64 sample_start sample_next R sample_step).
Defined.

(** The first iteration counts the ten initial cells as newborn. *)
Lemma newborn_counter_counts_new_cells_witness :
  reachable 64 64 sample_start /\ loop_iteration 64 64 [] sample_start = Running sample_next /\
  newborn_counter sample_next = 10.
Proof.
  assert (R : reachable 64 64 sample_start) by apply (reach_init 64 64 (Lcg.mk 7)).
  split; [exact R|]. split; [exact sample_iteration|].
  destruct (newborn_counter_counts_new_cells 64 64 [] sample_start sample_next R sample_iteration)
    as [_ E].
  rewrite E. vm_compute. reflexivity.
Defined.

Lemma switch_track_alternates_witness :
  music_ok initial_music /\ current_bg_sound_index (switch_track initial_music) = 1.
Proof.
  assert (H : music_ok initial_music) by (unfold music_ok; vm_compute; auto).
  split; [exact H|].
  destruct (switch_track_alternates initial_music H) as (_ & E & _).
  rewrite E. reflexivity.
Defined.
End Witnesses.

End Invariants.
